(** * Ollama subtitle translator: a shallow embedding of the services and of
      the batch orchestrator, with the properties of its specification.

    The development follows the layout of the repository:
    - [JS]        the string and array primitives of the host language that
                  the program calls ([trim], [split], [join], [replace], ...);
    - [SrtParser] [services/srtParser]: [parseSRT], [generateSRT];
    - [Ollama]    [services/ollama]: [cleanHost], [checkConnection],
                  [translateBatch];
    - [App]       the component state and [handleFileChange],
                  [startTranslation].

    Strings are sequences of 16-bit code units, as in the host language.
    Everything that touches the outside world (the network, the clock, the
    URL parser of the platform) is threaded through one small monad. *)

From Stdlib Require Import Strings.String Strings.Ascii NArith Sorting.Sorted.
From stdpp Require Import base tactics option list numbers.

Local Open Scope N_scope.

(** ** Strings of the host language *)

Module JS.

(** A string is its sequence of UTF-16 code units. *)
Abbreviation jsstring := (list N).

(** An ASCII literal as a [jsstring]. *)
Definition lit (s : string) : jsstring :=
  map N_of_ascii (list_ascii_of_string s).

Definition codeEq (a b : N) : bool := N.eqb a b.

(** [WhiteSpace] and [LineTerminator] code units: what [trim] strips. *)
Definition isWhiteSpace (c : N) : bool :=
  (9 <=? c) && (c <=? 13)
  || (c =? 32) || (c =? 160) || (c =? 5760)
  || (8192 <=? c) && (c <=? 8202)
  || (c =? 8232) || (c =? 8233) || (c =? 8239) || (c =? 8287)
  || (c =? 12288) || (c =? 65279).

Fixpoint trimStart (s : jsstring) : jsstring :=
  match s with
  | c :: s' => if isWhiteSpace c then trimStart s' else s
  | [] => []
  end.

Definition trimEnd (s : jsstring) : jsstring :=
  rev (trimStart (rev s)).

(** [s.trim()] *)
Definition trim (s : jsstring) : jsstring := trimEnd (trimStart s).

(** [s.startsWith(p)] *)
Fixpoint startsWith (p s : jsstring) : bool :=
  match p, s with
  | [], _ => true
  | a :: p', b :: s' => codeEq a b && startsWith p' s'
  | _ :: _, [] => false
  end.

(** The pieces of [s] cut at the occurrences of [sep], scanning from the
    left; [skip] code units of a separator that was just matched are still
    to be passed over.  The head of the result is the piece being read. *)
Definition pushFront (c : N) (pieces : list jsstring) : list jsstring :=
  match pieces with
  | p :: ps => (c :: p) :: ps
  | [] => [[c]]
  end.

Fixpoint splitFrom (sep : jsstring) (skip : nat) (s : jsstring)
  : list jsstring :=
  match s with
  | [] => [[]]
  | c :: s' =>
      match skip with
      | S k => splitFrom sep k s'
      | O =>
          if startsWith sep s
          then [] :: splitFrom sep (length sep - 1) s'
          else pushFront c (splitFrom sep 0 s')
      end
  end.

(** [s.split(sep)] for a string separator.  With the empty separator the
    host language cuts between every two code units. *)
Definition split (sep s : jsstring) : list jsstring :=
  match sep with
  | [] => map (fun c => [c]) s
  | _ :: _ => splitFrom sep 0 s
  end.

(** [pieces.join(sep)] *)
Fixpoint join (sep : jsstring) (pieces : list jsstring) : jsstring :=
  match pieces with
  | [] => []
  | [p] => p
  | p :: ps => p ++ sep ++ join sep ps
  end.

(** [s.replace(/pat/g, rep)] for a pattern that is a literal, non-empty
    sequence of code units and a replacement without [$]. *)
Fixpoint replaceAllFrom (pat rep : jsstring) (skip : nat) (s : jsstring)
  : jsstring :=
  match s with
  | [] => []
  | c :: s' =>
      match skip with
      | S k => replaceAllFrom pat rep k s'
      | O =>
          if startsWith pat s
          then rep ++ replaceAllFrom pat rep (length pat - 1) s'
          else c :: replaceAllFrom pat rep 0 s'
      end
  end.

Definition replaceAll (pat rep s : jsstring) : jsstring :=
  replaceAllFrom pat rep 0 s.

(** [s.replace(/c$/, "")]: without the [m] flag [$] is the end of input, so
    at most the last code unit goes. *)
Definition stripLast (c : N) (s : jsstring) : jsstring :=
  match rev s with
  | d :: r => if codeEq c d then rev r else s
  | [] => s
  end.

(** Case-insensitive comparison of the [i] flag (no [u] flag) against an
    ASCII pattern character: only the two ASCII cases of a letter match. *)
Definition toLowerAscii (c : N) : N :=
  if (65 <=? c) && (c <=? 90) then c + 32 else c.

Fixpoint startsWithCI (p s : jsstring) : bool :=
  match p, s with
  | [], _ => true
  | a :: p', b :: s' =>
      codeEq (toLowerAscii a) (toLowerAscii b) && startsWithCI p' s'
  | _ :: _, [] => false
  end.

(** Regular-expression atoms used by the program: a literal code unit or
    [\d]. A pattern is a sequence of atoms; it matches a fixed length. *)
Inductive atom := Lit (c : N) | Digit.

Definition isDigit (c : N) : bool := (48 <=? c) && (c <=? 57).

Definition atomMatches (a : atom) (c : N) : bool :=
  match a with
  | Lit d => codeEq d c
  | Digit => isDigit c
  end.

Fixpoint matchesAt (pat : list atom) (s : jsstring) : bool :=
  match pat, s with
  | [], _ => true
  | a :: pat', c :: s' => atomMatches a c && matchesAt pat' s'
  | _ :: _, [] => false
  end.

(** [s.match(re)] for an unanchored pattern without the [g] flag: the
    leftmost match, returned as the matched text.  [None] is [null]. *)
Fixpoint search (pat : list atom) (s : jsstring) : option jsstring :=
  if matchesAt pat s then Some (take (length pat) s)
  else match s with
       | [] => None
       | _ :: s' => search pat s'
       end.

End JS.

Import JS.

(** ** The shared types ([types.ts]) *)

Module Block.
Record SubtitleBlock := mk {
  id : jsstring;
  startTime : jsstring;
  endTime : jsstring;
  originalText : jsstring;
  translatedText : jsstring
}.

(** [b.translatedText = text] *)
Definition setTranslatedText (text : jsstring) (b : SubtitleBlock)
  : SubtitleBlock :=
  {| id := id b; startTime := startTime b; endTime := endTime b;
     originalText := originalText b; translatedText := text |}.
End Block.
Abbreviation SubtitleBlock := Block.SubtitleBlock.

Module Stats.
Record TranslationStats := mk {
  totalLines : nat;
  processedLines : nat;
  startTime : option Z;
  endTime : option Z;
  elapsedSeconds : Z
}.
End Stats.
Abbreviation TranslationStats := Stats.TranslationStats.

Inductive AppState := CONFIG | UPLOAD | PROCESSING | COMPLETED | ERROR.

Record OllamaConfig := { host : jsstring; model : jsstring }.

(** ** Exceptions and effects *)

Module Eff.

(** What evaluating an expression can end in.  [OutOfFuel] is only produced
    by a loop whose iteration budget is used up. *)
Inductive exn := TypeError | FetchError | SyntaxError | Error (msg : string).

Inductive outcome (A : Type) : Type :=
| Returned (a : A)
| Thrown (e : exn)
| OutOfFuel.
Arguments Returned {A} a.
Arguments Thrown {A} e.
Arguments OutOfFuel {A}.

(** [x.m()] where [x] may be [undefined]. *)
Definition deref {A} (x : option A) : outcome A :=
  match x with
  | Some a => Returned a
  | None => Thrown TypeError
  end.

Definition obind {A B} (m : outcome A) (k : A -> outcome B) : outcome B :=
  match m with
  | Returned a => k a
  | Thrown e => Thrown e
  | OutOfFuel => OutOfFuel
  end.

(** [xs.forEach(x => body)] over an accumulator the body updates. *)
Fixpoint forEach {A S} (body : S -> A -> outcome S) (xs : list A) (s : S)
  : outcome S :=
  match xs with
  | [] => Returned s
  | x :: xs' => obind (body s x) (forEach body xs')
  end.

End Eff.
Import Eff.

(** ** [services/srtParser] *)

Module SrtParser.

Definition CR : N := 13.
Definition LF : N := 10.

(** [/(\d{2}:\d{2}:\d{2},\d{3})/] *)
Definition timestampPattern : list atom :=
  [Digit; Digit; Lit 58; Digit; Digit; Lit 58; Digit; Digit; Lit 44;
   Digit; Digit; Digit].

Definition arrow : jsstring := lit " --> ".

(** [/(\d{2}:\d{2}:\d{2},\d{3}) --> (\d{2}:\d{2}:\d{2},\d{3})/] *)
Definition timePattern : list atom :=
  timestampPattern ++ map Lit arrow ++ timestampPattern.

(** The two capture groups of a match of [timePattern]. *)
Definition group1 (m : jsstring) : jsstring :=
  take (length timestampPattern) m.
Definition group2 (m : jsstring) : jsstring :=
  drop (length timestampPattern + length arrow) m.

(** The body of [blocks.forEach((block) => ...)]; [parsedBlocks.push] is the
    append to the accumulator. *)
Definition parseBlock (parsedBlocks : list SubtitleBlock) (block : jsstring)
  : outcome (list SubtitleBlock) :=
  let lines := split [LF] (trim block) in
  if (3 <=? length lines)%nat then
    obind (deref (lines !! 0%nat)) (fun line0 =>
    let id := trim line0 in
    obind (deref (lines !! 1%nat)) (fun line1 =>
    let timeMatch := search timePattern line1 in
    match timeMatch with
    | Some m =>
        let textLines := drop 2 lines in
        Returned (parsedBlocks ++
          [ {| Block.id := id;
               Block.startTime := group1 m;
               Block.endTime := group2 m;
               Block.originalText := join [LF] textLines;
               Block.translatedText := [] |} ])
    | None => Returned parsedBlocks
    end))
  else Returned parsedBlocks.

Definition normalizeLineEndings (content : jsstring) : jsstring :=
  replaceAll [CR] [LF] (replaceAll [CR; LF] [LF] content).

Definition parseSRT (content : jsstring) : outcome (list SubtitleBlock) :=
  let normalized := normalizeLineEndings content in
  let blocks := split [LF; LF] normalized in
  forEach parseBlock blocks [].

(** [block.translatedText || block.originalText]: the empty string is
    falsy. *)
Definition textOf (b : SubtitleBlock) : jsstring :=
  match Block.translatedText b with
  | [] => Block.originalText b
  | t => t
  end.

Definition generateSRT (blocks : list SubtitleBlock) : jsstring :=
  join [LF; LF]
    (map (fun b =>
            Block.id b ++ [LF] ++ Block.startTime b ++ arrow
              ++ Block.endTime b ++ [LF] ++ textOf b)
         blocks).

End SrtParser.

(** ** The outside world *)

Module World.

Inductive method := GET | POST.

(** The JSON body of a generate request (before [JSON.stringify]);
    [temperature] is in tenths. *)
Record GenerateBody := {
  body_model : jsstring;
  body_prompt : jsstring;
  body_stream : bool;
  body_temperature : N
}.

Record Request := {
  url : jsstring;
  meth : method;
  body : option GenerateBody
}.

(** What a response body parses to: not JSON at all, or a value whose
    [response] field is a string ([Some]) or anything else ([None]). *)
Inductive ResponseBody :=
| NotJson
| Json (response : option jsstring).

Record Response := { status : N; payload : ResponseBody }.

(** [fetch] either rejects (DNS, refused connection, CORS, ...) or resolves
    with a response of any status. *)
Inductive FetchOutcome :=
| NetworkFailure
| HttpResponse (r : Response).

(** The behaviours the program does not control: whether [new URL(s)]
    accepts [s], what the [k]-th request is answered with, what the [k]-th
    reading of the clock shows. *)
Record Platform := {
  urlParses : jsstring -> bool;
  network : nat -> Request -> FetchOutcome;
  clock : nat -> Z
}.

Inductive LogMessage :=
| LogStarting
| LogTranslating (first last : nat)
| LogCompleted.

Inductive Event :=
| EvFetch (req : Request)
| EvSetStats (s : TranslationStats)
| EvSetSubtitleBlocks (bs : list SubtitleBlock)
| EvSetState (s : AppState)
| EvSetErrorMsg (msg : string)
| EvAddLog (msg : LogMessage).

(** The component state of [App] ([useState] cells), the number of requests
    and clock readings made so far, and everything that happened, oldest
    first.  State updates take effect in the order they are issued.  The
    timer effect, which reads the clock every 100 ms during a run to refresh
    [elapsedSeconds], is left out: [clockReads] counts the readings of
    [startTranslation] alone, so which reading of the real clock a stored
    time is, is not determined here. *)
Record World := mk {
  state : AppState;
  config : OllamaConfig;
  stats : TranslationStats;
  subtitleBlocks : list SubtitleBlock;
  logs : list LogMessage;
  errorMsg : string;
  fetched : nat;
  clockReads : nat;
  trace : list Event
}.

Definition M (A : Type) : Type := World -> outcome A * World.

Definition ret {A} (a : A) : M A := fun w => (Returned a, w).

Definition throw {A} (e : exn) : M A := fun w => (Thrown e, w).

Definition bind {A B} (m : M A) (k : A -> M B) : M B :=
  fun w =>
    match m w with
    | (Returned a, w') => k a w'
    | (Thrown e, w') => (Thrown e, w')
    | (OutOfFuel, w') => (OutOfFuel, w')
    end.

(** [try { body } catch (e) { handler }] *)
Definition tryCatch {A} (body : M A) (handler : exn -> M A) : M A :=
  fun w =>
    match body w with
    | (Thrown e, w') => handler e w'
    | r => r
    end.

(** A pure computation that may throw, run in the world. *)
Definition lift {A} (o : outcome A) : M A := fun w => (o, w).

(** Calling an [async] function without awaiting it: a rejection stays in
    the promise and does not reach the caller. *)
Definition detach (m : M unit) : M unit :=
  fun w =>
    match m w with
    | (Thrown _, w') => (Returned tt, w')
    | r => r
    end.

Definition record (e : Event) (w : World) : World :=
  mk (state w) (config w) (stats w) (subtitleBlocks w) (logs w) (errorMsg w)
     (fetched w) (clockReads w) (trace w ++ [e]).

End World.
Import World.

Declare Scope eff_scope.
Delimit Scope eff_scope with eff.
Bind Scope eff_scope with M.
Notation "x <- m ;; k" := (bind m (fun x => k))
  (at level 100, m at next level, right associativity) : eff_scope.
Notation "m ;; k" := (bind m (fun _ => k))
  (at level 100, right associativity) : eff_scope.
Local Open Scope eff_scope.

(** ** [services/ollama] *)

Module Ollama.

(** The three code units between the slashes of the first [replace] of
    [cleanHost], as they stand in the source file: U+00EF U+00BC U+0161. *)
Definition colonPattern : jsstring := [239; 188; 353].

(** U+FF1A FULLWIDTH COLON. *)
Definition fullWidthColon : N := 65306.

Definition hasHttpScheme (s : jsstring) : bool :=
  startsWithCI (lit "http://") s || startsWithCI (lit "https://") s.

Definition cleanHost (host : jsstring) : jsstring :=
  let cleaned := trim host in
  let cleaned := replaceAll colonPattern (lit ":") cleaned in
  let cleaned := stripLast 47 cleaned in
  if negb (hasHttpScheme cleaned) then lit "http://" ++ cleaned
  else cleaned.

Inductive ErrorType := CORS | NETWORK | INVALID_URL.

Record ConnectionResult := { ok : bool; errorType : option ErrorType }.

Section WithPlatform.
Variable P : Platform.

(** [new URL(s)], for its exception only. *)
Definition newURL (s : jsstring) : M unit :=
  if urlParses P s then ret tt else throw TypeError.

(** [await fetch(url, init)] *)
Definition fetch (req : Request) : M Response :=
  fun w =>
    let w' :=
      World.mk (state w) (config w) (stats w) (subtitleBlocks w) (logs w)
        (errorMsg w) (S (fetched w)) (clockReads w)
        (trace w ++ [EvFetch req]) in
    match network P (fetched w) req with
    | NetworkFailure => (Thrown FetchError, w')
    | HttpResponse r => (Returned r, w')
    end.

(** [response.ok] *)
Definition responseOk (r : Response) : bool :=
  (200 <=? status r) && (status r <=? 299).

(** [await response.json()] *)
Definition json (r : Response) : M (option jsstring) :=
  match payload r with
  | NotJson => throw SyntaxError
  | Json data => ret data
  end.

Definition tagsRequest (sanitized : jsstring) : Request :=
  {| url := sanitized ++ lit "/api/tags"; meth := GET; body := None |}.

Definition checkConnection (host : jsstring) : M ConnectionResult :=
  tryCatch
    (let sanitized := cleanHost host in
     invalid <- tryCatch (newURL sanitized ;; ret None)
                  (fun _ =>
                     ret (Some {| ok := false;
                                  errorType := Some INVALID_URL |})) ;;
     match invalid with
     | Some result => ret result
     | None =>
         response <- fetch (tagsRequest sanitized) ;;
         if responseOk response then
           ret {| ok := true; errorType := None |}
         else if status response =? 403 then
           ret {| ok := false; errorType := Some CORS |}
         else
           ret {| ok := false; errorType := Some NETWORK |}
     end)
    (fun _ => ret {| ok := false; errorType := Some NETWORK |}).

(** The delimiter token and the string the segments are joined with. *)
Definition delimiter : jsstring := lit "---SPLIT---".
Definition separator : jsstring := [SrtParser.LF] ++ delimiter ++ [SrtParser.LF].

(** [texts.join('\n---SPLIT---\n')] *)
Definition encode (texts : list jsstring) : jsstring := join separator texts.

Definition promptHead : jsstring := lit "
    You are a professional subtitle translator. 
    Translate the following Japanese subtitle lines into Simplified Chinese.
    Do not output any explanations, notes, or line numbers. 
    Only output the translated text, line by line.
    Maintain the exact same number of lines as the input.
    
    Input:
    ".

Definition promptTail : jsstring := lit "
  ".

Definition buildPrompt (texts : list jsstring) : jsstring :=
  promptHead ++ encode texts ++ promptTail.

Definition generateRequest (sanitized model prompt : jsstring) : Request :=
  {| url := sanitized ++ lit "/api/generate";
     meth := POST;
     body := Some {| body_model := model;
                     body_prompt := prompt;
                     body_stream := false;
                     body_temperature := 3 |} |}.

(** The three exits of the decoding part of [translateBatch]. *)
Inductive Decoded :=
| ByDelimiter (translatedLines : list jsstring)
| ByNewline (altSplit : list jsstring)
| Originals (texts : list jsstring).

Definition linesOf (d : Decoded) : list jsstring :=
  match d with
  | ByDelimiter l => l
  | ByNewline l => l
  | Originals l => l
  end.

Definition delimiterSplit (rawOutput : jsstring) : list jsstring :=
  map trim (split delimiter rawOutput).

Definition newlineSplit (rawOutput : jsstring) : list jsstring :=
  filter (fun s => (0 <? length (trim s))%nat = true)
    (split [SrtParser.LF] rawOutput).

Definition decode (texts : list jsstring) (rawOutput : jsstring) : Decoded :=
  let translatedLines := delimiterSplit rawOutput in
  if negb (length translatedLines =? length texts)%nat then
    let altSplit := newlineSplit rawOutput in
    if (length altSplit =? length texts)%nat then ByNewline altSplit
    else Originals texts
  else ByDelimiter translatedLines.

Definition translateBatch (host model : jsstring) (texts : list jsstring)
  : M (list jsstring) :=
  let prompt := buildPrompt texts in
  tryCatch
    (let sanitized := cleanHost host in
     response <- fetch (generateRequest sanitized model prompt) ;;
     (if negb (responseOk response)
      then throw (Error "Translation request failed") else ret tt) ;;
     data <- json response ;;
     response_field <- lift (deref data) ;;
     let rawOutput := trim response_field in
     ret (linesOf (decode texts rawOutput)))
    (fun _ => ret texts).

End WithPlatform.
End Ollama.

(** ** [App]: the component state and the orchestrator *)

Module App.

Definition BATCH_SIZE : nat := 10.
Definition DEFAULT_HOST : jsstring := lit "http://127.0.0.1:11434".

Definition initialStats : TranslationStats :=
  {| Stats.totalLines := 0; Stats.processedLines := 0;
     Stats.startTime := None; Stats.endTime := None;
     Stats.elapsedSeconds := 0 |}.

(** The component right after mounting. *)
Definition initialWorld : World :=
  World.mk CONFIG {| host := DEFAULT_HOST; model := [] |} initialStats
    [] [] "" 0 0 [].

(** The state setters; each one leaves its mark in the trace. *)
Definition setState (s : AppState) : M unit :=
  fun w =>
    (Returned tt,
     World.mk s (config w) (stats w) (subtitleBlocks w) (logs w)
       (errorMsg w) (fetched w) (clockReads w) (trace w ++ [EvSetState s])).

Definition setStats (f : TranslationStats -> TranslationStats) : M unit :=
  fun w =>
    let s := f (stats w) in
    (Returned tt,
     World.mk (state w) (config w) s (subtitleBlocks w) (logs w)
       (errorMsg w) (fetched w) (clockReads w) (trace w ++ [EvSetStats s])).

Definition setSubtitleBlocks (bs : list SubtitleBlock) : M unit :=
  fun w =>
    (Returned tt,
     World.mk (state w) (config w) (stats w) bs (logs w)
       (errorMsg w) (fetched w) (clockReads w)
       (trace w ++ [EvSetSubtitleBlocks bs])).

Definition setErrorMsg (msg : string) : M unit :=
  fun w =>
    (Returned tt,
     World.mk (state w) (config w) (stats w) (subtitleBlocks w) (logs w)
       msg (fetched w) (clockReads w) (trace w ++ [EvSetErrorMsg msg])).

(** [setLogs(prev => [msg, ...prev].slice(0, 5))] *)
Definition addLog (msg : LogMessage) : M unit :=
  fun w =>
    (Returned tt,
     World.mk (state w) (config w) (stats w) (subtitleBlocks w)
       (take 5 (msg :: logs w))
       (errorMsg w) (fetched w) (clockReads w) (trace w ++ [EvAddLog msg])).

(** The [config] the closure holds. *)
Definition getConfig : M OllamaConfig := fun w => (Returned (config w), w).

(** [xs.slice(i, j)] for [0 <= i]. *)
Definition slice {A} (xs : list A) (i j : nat) : list A :=
  take (j - i) (drop i xs).

(** [translatedTexts.forEach((text, index) => { if (newBlocks[i + index])
    newBlocks[i + index].translatedText = text })], from position [index]
    on.  The entries are objects shared by [blocks], [newBlocks] and the
    component state; the assignment is the only write to them, and the loop
    reads nothing but [originalText] from [blocks], so the entries are
    modelled as values. *)
Fixpoint writeBack (i index : nat) (translatedTexts : list jsstring)
  (newBlocks : list SubtitleBlock) : list SubtitleBlock :=
  match translatedTexts with
  | [] => newBlocks
  | text :: rest =>
      writeBack i (S index) rest
        match newBlocks !! (i + index)%nat with
        | Some _ => alter (Block.setTranslatedText text) (i + index)%nat
                      newBlocks
        | None => newBlocks
        end
  end.

Definition withStart (now : Z) (prev : TranslationStats) : TranslationStats :=
  {| Stats.totalLines := Stats.totalLines prev;
     Stats.processedLines := 0;
     Stats.startTime := Some now;
     Stats.endTime := Stats.endTime prev;
     Stats.elapsedSeconds := Stats.elapsedSeconds prev |}.

Definition withProcessed (n : nat) (prev : TranslationStats)
  : TranslationStats :=
  {| Stats.totalLines := Stats.totalLines prev;
     Stats.processedLines := n;
     Stats.startTime := Stats.startTime prev;
     Stats.endTime := Stats.endTime prev;
     Stats.elapsedSeconds := Stats.elapsedSeconds prev |}.

Definition withEnd (now : Z) (prev : TranslationStats) : TranslationStats :=
  {| Stats.totalLines := Stats.totalLines prev;
     Stats.processedLines := Stats.processedLines prev;
     Stats.startTime := Stats.startTime prev;
     Stats.endTime := Some now;
     Stats.elapsedSeconds := Stats.elapsedSeconds prev |}.

Definition withTotal (n : nat) (prev : TranslationStats) : TranslationStats :=
  {| Stats.totalLines := n;
     Stats.processedLines := Stats.processedLines prev;
     Stats.startTime := Stats.startTime prev;
     Stats.endTime := Stats.endTime prev;
     Stats.elapsedSeconds := Stats.elapsedSeconds prev |}.

Section WithPlatform.
Variable P : Platform.

(** [Date.now()] *)
Definition dateNow : M Z :=
  fun w =>
    (Returned (clock P (clockReads w)),
     World.mk (state w) (config w) (stats w) (subtitleBlocks w) (logs w)
       (errorMsg w) (fetched w) (S (clockReads w)) (trace w)).

(** [for (let i = ...; i < blocks.length; i += BATCH_SIZE) { ... }] with the
    two variables the body updates; [fuel] bounds the number of
    iterations. *)
Fixpoint batchLoop (fuel : nat) (cfg : OllamaConfig)
  (blocks : list SubtitleBlock) (i : nat)
  (currentProcessed : nat) (newBlocks : list SubtitleBlock)
  : M (nat * list SubtitleBlock) :=
  if (i <? length blocks)%nat then
    match fuel with
    | O => fun w => (OutOfFuel, w)
    | S fuel' =>
        let batch := slice blocks i (i + BATCH_SIZE) in
        let texts := map Block.originalText batch in
        addLog (LogTranslating (i + 1)
                  (Nat.min (i + BATCH_SIZE) (length blocks))) ;;
        translatedTexts <-
          Ollama.translateBatch P (host cfg) (model cfg) texts ;;
        let newBlocks := writeBack i 0 translatedTexts newBlocks in
        let currentProcessed := (currentProcessed + length batch)%nat in
        setSubtitleBlocks newBlocks ;;
        setStats (withProcessed currentProcessed) ;;
        batchLoop fuel' cfg blocks (i + BATCH_SIZE) currentProcessed newBlocks
    end
  else ret (currentProcessed, newBlocks).

Definition startTranslation (blocks : list SubtitleBlock) : M unit :=
  cfg <- getConfig ;;
  now <- dateNow ;;
  setStats (withStart now) ;;
  addLog LogStarting ;;
  let currentProcessed := 0%nat in
  let newBlocks := blocks (* [...blocks] *) in
  batchLoop (length blocks) cfg blocks 0 currentProcessed newBlocks ;;
  now <- dateNow ;;
  setStats (withEnd now) ;;
  setState COMPLETED ;;
  addLog LogCompleted.

(** The [reader.onload] callback of [handleFileChange], given the text of
    the file. *)
Definition handleFileChange (content : jsstring) : M unit :=
  tryCatch
    (parsed <- lift (SrtParser.parseSRT content) ;;
     setSubtitleBlocks parsed ;;
     setStats (withTotal (length parsed)) ;;
     setState PROCESSING ;;
     detach (startTranslation parsed))
    (fun _ =>
       setErrorMsg "Failed to parse SRT file." ;;
       setState ERROR).

End WithPlatform.
End App.

(** ** [services/ollama]: model discovery *)

Module Models.

Record OllamaModel := {
  name : jsstring;
  modified_at : jsstring;
  size : N
}.

Section WithPlatform.
Variable P : Platform.

(** What [data.models] holds for the body of a response when it is truthy;
    [None] when it is missing or falsy.  (The bodies of [World] keep the
    [response] field only.)  The replies covered are those that fit the
    type the code declares, [OllamaModel[]]: an array of objects with a
    string [name].  A body with anything else under [models] (an entry that
    is [null], an object without a [name], a value that is not an array) is
    outside this embedding. *)
Variable modelsField : Response -> option (list OllamaModel).

Definition fetchModels (host : jsstring) : M (list OllamaModel) :=
  tryCatch
    (let sanitized := Ollama.cleanHost host in
     response <- Ollama.fetch P (Ollama.tagsRequest sanitized) ;;
     (if negb (Ollama.responseOk response)
      then throw (Error "Failed to fetch tags") else ret tt) ;;
     Ollama.json response ;;
     ret match modelsField response with
         | Some models => models
         | None => []
         end)
    (fun _ => ret []).

End WithPlatform.
End Models.

(** ** [App]: the effect that runs on mount and when the host changes *)

Module Mount.

(** The [useState] cells of the configuration step that [World] does not
    hold. *)
Record Settings := {
  models : list Models.OllamaModel;
  connectionStatus : Ollama.ConnectionResult;
  isChecking : bool
}.

Definition initialSettings : Settings :=
  {| models := [];
     connectionStatus := {| Ollama.ok := false; Ollama.errorType := None |};
     isChecking := false |}.

(** Computations over the settings and the world; an exception keeps the
    updates made before it. *)
Definition MS (A : Type) : Type :=
  Settings -> World -> outcome A * Settings * World.

Definition retS {A} (a : A) : MS A := fun s w => (Returned a, s, w).

Definition bindS {A B} (m : MS A) (k : A -> MS B) : MS B :=
  fun s w =>
    match m s w with
    | (Returned a, s', w') => k a s' w'
    | (Thrown e, s', w') => (Thrown e, s', w')
    | (OutOfFuel, s', w') => (OutOfFuel, s', w')
    end.

(** [try { body } catch (e) { handler } finally { final }] *)
Definition tryCatchFinally {A} (body : MS A) (handler : exn -> MS A)
  (final : MS unit) : MS A :=
  fun s w =>
    let r := match body s w with
             | (Thrown e, s', w') => handler e s' w'
             | r => r
             end in
    match r with
    | (o, s', w') =>
        match final s' w' with
        | (Returned _, s'', w'') => (o, s'', w'')
        | (Thrown e, s'', w'') => (Thrown e, s'', w'')
        | (OutOfFuel, s'', w'') => (OutOfFuel, s'', w'')
        end
    end.

(** A computation over the world alone. *)
Definition liftM {A} (m : M A) : MS A :=
  fun s w => match m w with (o, w') => (o, s, w') end.

Definition setIsChecking (b : bool) : MS unit :=
  fun s w =>
    (Returned tt,
     {| models := models s; connectionStatus := connectionStatus s;
        isChecking := b |}, w).

Definition setConnectionStatus (status : Ollama.ConnectionResult) : MS unit :=
  fun s w =>
    (Returned tt,
     {| models := models s; connectionStatus := status;
        isChecking := isChecking s |}, w).

Definition setModels (ms : list Models.OllamaModel) : MS unit :=
  fun s w =>
    (Returned tt,
     {| models := ms; connectionStatus := connectionStatus s;
        isChecking := isChecking s |}, w).

(** [setConfig(prev => ({ ...prev, model }))] *)
Definition setConfigModel (m : jsstring) : MS unit :=
  fun s w =>
    (Returned tt, s,
     World.mk (state w) {| host := host (config w); model := m |}
       (stats w) (subtitleBlocks w) (logs w) (errorMsg w) (fetched w)
       (clockReads w) (trace w)).

(** [!str]: the empty string is falsy. *)
Definition isEmpty (str : jsstring) : bool :=
  match str with [] => true | _ :: _ => false end.

Section WithPlatform.
Variable P : Platform.
Variable modelsField : Response -> option (list Models.OllamaModel).

(** The function [load] of the effect, with the [config] of the render it
    was created in.  On the replies [modelsField] covers, the entry
    [availableModels[0]] read by the update of the configuration is a model
    object, and its [name] a string. *)
Definition load (config : OllamaConfig) : MS unit :=
  bindS (setIsChecking true) (fun _ =>
  tryCatchFinally
    (bindS (liftM (Ollama.checkConnection P (host config))) (fun status =>
     bindS (setConnectionStatus status) (fun _ =>
     if Ollama.ok status then
       bindS (liftM (Models.fetchModels P modelsField (host config)))
         (fun availableModels =>
       bindS (setModels availableModels) (fun _ =>
       if (0 <? length availableModels)%nat && isEmpty (model config) then
         bindS (liftM (lift (deref (availableModels !! 0%nat))))
           (fun first => setConfigModel (Models.name first))
       else retS tt))
     else setModels [])))
    (fun _ => retS tt)
    (setIsChecking false)).

End WithPlatform.
End Mount.

(** ** [App]: the live preview *)

Module View.

(** The entries the live preview renders, with their positions:
    [subtitleBlocks.slice(0, Math.max(5, processedLines + 2))] mapped to an
    element where [block.translatedText || idx < processedLines + 5] is
    truthy and to nothing elsewhere. *)
Definition previewRows (subtitleBlocks : list SubtitleBlock)
  (processedLines : nat) : list (nat * SubtitleBlock) :=
  filter
    (fun row =>
       negb (Mount.isEmpty (Block.translatedText (snd row)))
       || (fst row <? processedLines + 5)%nat = true)
    (imap (fun idx block => (idx, block))
       (App.slice subtitleBlocks 0 (Nat.max 5 (processedLines + 2)))).

End View.

(** * The vocabulary of the properties *)

Import Ollama SrtParser.

(** The four outcomes of the probe, in the vocabulary of the
    specification. *)
Definition probeOK : ConnectionResult :=
  {| ok := true; errorType := None |}.
Definition probeFORBIDDEN : ConnectionResult :=
  {| ok := false; errorType := Some CORS |}.
Definition probeUNREACHABLE : ConnectionResult :=
  {| ok := false; errorType := Some NETWORK |}.
Definition probeINVALID_ADDRESS : ConnectionResult :=
  {| ok := false; errorType := Some INVALID_URL |}.

(** The world after the [k]-th request went out. *)
Definition sent (req : Request) (w : World) : World :=
  World.mk (state w) (config w) (stats w) (subtitleBlocks w) (logs w)
    (errorMsg w) (S (fetched w)) (clockReads w) (trace w ++ [EvFetch req]).

(** The generate call fails: the transport fails, or the response is not a
    success. *)
Definition generateFails (answer : FetchOutcome) : Prop :=
  answer = NetworkFailure
  \/ exists r, answer = HttpResponse r /\ responseOk r = false.

(** What [translateBatch] makes of the answer to its request. *)
Definition answerLines (texts : list jsstring) (answer : FetchOutcome)
  : list jsstring :=
  match answer with
  | NetworkFailure => texts
  | HttpResponse r =>
      if responseOk r then
        match payload r with
        | Json (Some response) => linesOf (decode texts (trim response))
        | Json None => texts
        | NotJson => texts
        end
      else texts
  end.

Definition requestFor (cfg : OllamaConfig) (texts : list jsstring) : Request :=
  generateRequest (cleanHost (host cfg)) (model cfg) (buildPrompt texts).

(** The values [i] takes in the header of the loop. *)
Fixpoint indices (fuel i n : nat) : list nat :=
  if (i <? n)%nat then
    match fuel with
    | O => []
    | S fuel' => i :: indices fuel' (i + App.BATCH_SIZE) n
    end
  else [].

Definition batchAt (blocks : list SubtitleBlock) (i : nat)
  : list SubtitleBlock :=
  App.slice blocks i (i + App.BATCH_SIZE).

Definition textsAt (blocks : list SubtitleBlock) (i : nat) : list jsstring :=
  map Block.originalText (batchAt blocks i).

Section Worlds.
Variable P : Platform.

(** The world after the body of the loop ran at [i]. *)
Definition afterBatch (cfg : OllamaConfig) (blocks : list SubtitleBlock)
  (i cp : nat) (nb : list SubtitleBlock) (w : World) : World :=
  let texts := textsAt blocks i in
  let window := LogTranslating (i + 1)
                  (Nat.min (i + App.BATCH_SIZE) (length blocks)) in
  let res := answerLines texts
               (network P (fetched w) (requestFor cfg texts)) in
  let nb' := App.writeBack i 0 res nb in
  let s := App.withProcessed (cp + length (batchAt blocks i)) (stats w) in
  World.mk (state w) (config w) s nb' (take 5 (window :: logs w))
    (errorMsg w) (S (fetched w)) (clockReads w)
    (trace w ++ [EvAddLog window; EvFetch (requestFor cfg texts);
                 EvSetSubtitleBlocks nb'; EvSetStats s]).

(** The world when the loop is entered, and when the run is over. *)
Definition started (w : World) : World :=
  let s := App.withStart (clock P (clockReads w)) (stats w) in
  World.mk (state w) (config w) s (subtitleBlocks w)
    (take 5 (LogStarting :: logs w)) (errorMsg w) (fetched w)
    (S (clockReads w)) (trace w ++ [EvSetStats s; EvAddLog LogStarting]).

Definition finished (w : World) : World :=
  let s := App.withEnd (clock P (clockReads w)) (stats w) in
  World.mk COMPLETED (config w) s (subtitleBlocks w)
    (take 5 (LogCompleted :: logs w)) (errorMsg w) (fetched w)
    (S (clockReads w))
    (trace w ++ [EvSetStats s; EvSetState COMPLETED; EvAddLog LogCompleted]).

End Worlds.

(** The batches of a document, in the order of the loop. *)
Definition batchesOf (blocks : list SubtitleBlock)
  : list (list SubtitleBlock) :=
  map (batchAt blocks) (indices (length blocks) 0 (length blocks)).

(** What the trace shows of a run: the windows announced in the log, the
    requests sent, and the processed counts the statistics went through. *)
Definition loggedWindows (tr : list Event) : list (nat * nat) :=
  omap (fun e => match e with
                 | EvAddLog (LogTranslating a b) => Some (a, b)
                 | _ => None
                 end) tr.

Definition requestsOf (tr : list Event) : list Request :=
  omap (fun e => match e with EvFetch req => Some req | _ => None end) tr.

Definition processedHistory (tr : list Event) : list nat :=
  omap (fun e => match e with
                 | EvSetStats s => Some (Stats.processedLines s)
                 | _ => None
                 end) tr.

Definition stateChanges (tr : list Event) : list AppState :=
  omap (fun e => match e with EvSetState s => Some s | _ => None end) tr.

Fixpoint runningTotals (from : nat) (sizes : list nat) : list nat :=
  match sizes with
  | [] => []
  | s :: rest => (from + s)%nat :: runningTotals (from + s) rest
  end.

Definition windowAt (n i : nat) : nat * nat :=
  ((i + 1)%nat, Nat.min (i + App.BATCH_SIZE) n).

Fixpoint windowsFrom (from : nat) (batches : list (list SubtitleBlock))
  : list (nat * nat) :=
  match batches with
  | [] => []
  | b :: rest =>
      ((from + 1)%nat, (from + length b)%nat)
        :: windowsFrom (from + length b) rest
  end.

(** A block the parser drops: fewer than three lines, or a second line in
    which the timing pattern does not occur. *)
Definition malformed (block : jsstring) : Prop :=
  let lines := split [LF] (trim block) in
  (length lines < 3)%nat
  \/ exists line1, lines !! 1%nat = Some line1
                   /\ search timePattern line1 = None.

(** [sub] occurs in [s] (what [s.includes(sub)] computes). *)
Fixpoint includes (sub s : jsstring) : bool :=
  startsWith sub s
  || match s with
     | [] => false
     | _ :: s' => includes sub s'
     end.

Definition trimmed (s : jsstring) : Prop := trim s = s.
Definition delimiterFree (s : jsstring) : Prop := includes delimiter s = false.

(** A line with nothing to show: it is empty or holds white space only. *)
Definition blank (line : jsstring) : bool := forallb isWhiteSpace line.

(** The payload split on line breaks, with the empty and the whitespace-only
    lines discarded and the other lines kept as they stand, in their order.
    This follows the words of the specification; [newlineSplit] is what the
    code computes. *)
Definition specNewlineSplit (payload : jsstring) : list jsstring :=
  filter (fun line => blank line = false) (split [LF] payload).

Fixpoint appLast (c : N) (pieces : list jsstring) : list jsstring :=
  match pieces with
  | [] => []
  | [p] => [p ++ [c]]
  | p :: ps => p :: appLast c ps
  end.

(** A document of [n] entries with the texts "line A", "line B", ... *)
Definition sampleBlock (k : nat) : SubtitleBlock :=
  {| Block.id := [N.of_nat (65 + k)];
     Block.startTime := lit "00:00:01,000";
     Block.endTime := lit "00:00:02,500";
     Block.originalText := lit "line " ++ [N.of_nat (65 + k)];
     Block.translatedText := [] |}.

Definition sampleDocument (n : nat) : list SubtitleBlock :=
  map sampleBlock (seq 0 n).

(** A reply of [n] delimiter-separated pieces "T0", "T1", ... *)
Definition sampleReply (n : nat) : FetchOutcome :=
  HttpResponse
    {| status := 200;
       payload :=
         Json (Some (encode
                       (map (fun k => lit "T" ++ [N.of_nat (48 + k)])
                          (seq 0 n)))) |}.

(** A backend whose second answer is a transport failure; the first answer
    has ten pieces and every later one three. *)
Definition flakyPlatform : Platform :=
  {| urlParses := fun _ => true;
     network := fun k _ =>
       match k with
       | 0%nat => sampleReply 10
       | 1%nat => NetworkFailure
       | _ => sampleReply 3
       end;
     clock := fun k => (1000 * Z.of_nat k)%Z |}.

(** A document whose two blocks are both malformed: one has a single line,
    the other no timing line. *)
Definition brokenSrt : jsstring := lit "not a subtitle

7
00:00:01 -> 00:00:02
hello".

(** ** Further vocabulary *)

(** A backend that cannot be reached. *)
Definition deadPlatform : Platform :=
  {| urlParses := fun _ => true;
     network := fun _ _ => NetworkFailure;
     clock := fun k => (1000 * Z.of_nat k)%Z |}.

(** A file of two entries. *)
Definition sampleSrt : jsstring := lit "1
00:00:01,000 --> 00:00:02,500
hello
world

2
00:00:03,000 --> 00:00:04,000
  bye
".

(** The line the answers of the backend assign to entry [j] of a document
    whose first batch is answered by call number [firstCall]. *)
Definition lineFor (P : Platform) (cfg : OllamaConfig)
  (blocks : list SubtitleBlock) (firstCall : nat) (j : nat)
  : option jsstring :=
  let start := (App.BATCH_SIZE * (j / App.BATCH_SIZE))%nat in
  answerLines (textsAt blocks start)
    (network P (firstCall + j / App.BATCH_SIZE)
       (requestFor cfg (textsAt blocks start)))
  !! (j mod App.BATCH_SIZE)%nat.

(** What every entry that [parseSRT] returns satisfies. *)
Definition timestamp (s : jsstring) : Prop :=
  matchesAt timestampPattern s = true /\ length s = 12%nat.

Definition freshEntry (e : SubtitleBlock) : Prop :=
  Block.translatedText e = []
  /\ timestamp (Block.startTime e)
  /\ timestamp (Block.endTime e)
  /\ trim (Block.id e) = Block.id e.

(** The message that announces a window. *)
Definition windowMessage (window : nat * nat) : LogMessage :=
  LogTranslating (fst window) (snd window).

(** The text [s] with every line feed written as [eol]. *)
Definition withLineEnding (eol : jsstring) (s : jsstring) : jsstring :=
  concat (map (fun c => if codeEq c LF then eol else [c]) s).






(** What [fetchModels] makes of the answer to its request. *)
Definition answerModels
  (modelsField : Response -> option (list Models.OllamaModel))
  (answer : FetchOutcome) : list Models.OllamaModel :=
  match answer with
  | NetworkFailure => []
  | HttpResponse r =>
      if responseOk r then
        match payload r with
        | NotJson => []
        | Json _ => match modelsField r with Some ms => ms | None => [] end
        end
      else []
  end.

(** A backend that answers every request with status 200 and a JSON body,
    and the two models it lists. *)
Definition sampleModels : list Models.OllamaModel :=
  [ {| Models.name := lit "qwen2.5"; Models.modified_at := lit "2025-01-01";
       Models.size := 4000 |};
    {| Models.name := lit "llama3"; Models.modified_at := lit "2025-02-01";
       Models.size := 8000 |} ].

Definition healthyPlatform : Platform :=
  {| urlParses := fun _ => true;
     network := fun _ _ =>
       HttpResponse {| status := 200; payload := Json None |};
     clock := fun k => (1000 * Z.of_nat k)%Z |}.

(** A backend that answers every request with a blank text. *)
Definition blankPlatform : Platform :=
  {| urlParses := fun _ => true;
     network := fun _ _ =>
       HttpResponse {| status := 200; payload := Json (Some (lit "
  ")) |};
     clock := fun k => (1000 * Z.of_nat k)%Z |}.

(** * Properties *)

(** ** The codec: cardinality and the three exits *)

Lemma decode_cases (texts : list jsstring) (rawOutput : jsstring) :
  (length (delimiterSplit rawOutput) = length texts
   /\ decode texts rawOutput = ByDelimiter (delimiterSplit rawOutput))
  \/ (length (delimiterSplit rawOutput) <> length texts
      /\ length (newlineSplit rawOutput) = length texts
      /\ decode texts rawOutput = ByNewline (newlineSplit rawOutput))
  \/ (length (delimiterSplit rawOutput) <> length texts
      /\ length (newlineSplit rawOutput) <> length texts
      /\ decode texts rawOutput = Originals texts).
Proof.
  unfold decode.
  destruct (Nat.eqb_spec (length (delimiterSplit rawOutput)) (length texts))
    as [Hd | Hd]; simpl.
  - left. split; [exact Hd | reflexivity].
  - right.
    destruct (Nat.eqb_spec (length (newlineSplit rawOutput)) (length texts))
      as [Hn | Hn].
    + left. repeat split; assumption.
    + right. repeat split; assumption.
Qed.

Lemma decode_length (texts : list jsstring) (rawOutput : jsstring) :
  length (linesOf (decode texts rawOutput)) = length texts.
Proof.
  destruct (decode_cases texts rawOutput)
    as [[H ->] | [(_ & H & ->) | (_ & _ & ->)]]; simpl; congruence.
Qed.

(** C1: for every segment sequence [S] and every payload, what [decode]
    returns has exactly [length S] elements; and when neither the delimiter
    split nor the newline split has [length S] pieces, it is [S] itself. *)
Theorem C1_decode_cardinality_and_fallback :
  forall (S : list jsstring) (payload : jsstring),
    length (linesOf (decode S payload)) = length S
    /\ (length (delimiterSplit payload) <> length S ->
        length (newlineSplit payload) <> length S ->
        decode S payload = Originals S /\ linesOf (decode S payload) = S).
Proof.
  intros S payload. split.
  - apply decode_length.
  - intros Hd Hn.
    destruct (decode_cases S payload)
      as [[H _] | [(_ & H & _) | (_ & _ & ->)]]; try contradiction.
    split; reflexivity.
Qed.

(** The fallback exit is taken on a two-segment batch answered with three
    delimiter pieces that sit on five lines. *)
Lemma C1_fallback_witness :
  let S := [lit "a"; lit "b"] in
  let payload := lit "x
---SPLIT---
y
---SPLIT---
z" in
  length (linesOf (decode S payload)) = length S
  /\ decode S payload = Originals S /\ linesOf (decode S payload) = S.
Proof.
  cbv zeta.
  pose proof (C1_decode_cardinality_and_fallback
                [lit "a"; lit "b"] (lit "x
---SPLIT---
y
---SPLIT---
z")) as [Hlen Hfall].
  split; [exact Hlen |].
  apply Hfall; vm_compute; discriminate.
Defined.

(** [trim] leaves nothing exactly of the strings made of white space. *)
Lemma trimStart_nil (s : jsstring) :
  trimStart s = [] <-> blank s = true.
Proof.
  unfold blank. induction s as [| c s IH]; simpl; [tauto |].
  destruct (isWhiteSpace c); simpl; [exact IH |].
  split; discriminate.
Qed.

Lemma trimStart_head (s : jsstring) (c : N) (t : jsstring) :
  trimStart s = c :: t -> isWhiteSpace c = false.
Proof.
  induction s as [| a s IH]; simpl; [discriminate |].
  destruct (isWhiteSpace a) eqn:Ha; [exact IH |].
  intros [= <- _]. exact Ha.
Qed.

Lemma trim_nil (s : jsstring) : trim s = [] <-> blank s = true.
Proof.
  split.
  - unfold trim, trimEnd. intros H.
    apply (f_equal (@rev N)) in H. rewrite rev_involutive in H. simpl in H.
    apply trimStart_nil in H. unfold blank in H.
    rewrite forallb_forall in H.
    destruct (trimStart s) as [| c t] eqn:Hs; [apply trimStart_nil, Hs |].
    pose proof (trimStart_head s c t Hs) as Hc.
    rewrite (H c) in Hc; [discriminate |].
    apply -> in_rev. left. reflexivity.
  - intros H. apply trimStart_nil in H. unfold trim. rewrite H. reflexivity.
Qed.

(** The filter of [translateBatch] keeps a line exactly when it is not
    blank, so the newline split of the code is the one of the
    specification. *)
Lemma newlineSplit_refines (rawOutput : jsstring) :
  newlineSplit rawOutput = specNewlineSplit rawOutput.
Proof.
  unfold newlineSplit, specNewlineSplit. apply list_filter_iff. intros s.
  rewrite Nat.ltb_lt. pose proof (trim_nil s) as Hnil.
  destruct (blank s); destruct (trim s) as [| c t]; simpl; split;
    try reflexivity; try lia; try discriminate; intros _.
  - destruct Hnil as [_ Hnil]. discriminate (Hnil eq_refl).
  - destruct Hnil as [Hnil _]. discriminate (Hnil eq_refl).
Qed.

(** C8: when the delimiter split of the payload misses the expected count and
    the payload split on line breaks, with the empty and the whitespace-only
    lines discarded, has exactly that count, [decode] leaves by its second
    exit and returns that newline split: the lines of the payload that hold
    a code unit other than white space, in their order and as they stand. *)
Theorem C8_newline_recovery :
  forall (texts : list jsstring) (rawOutput : jsstring),
    length (split delimiter rawOutput) <> length texts ->
    length (specNewlineSplit rawOutput) = length texts ->
    decode texts rawOutput = ByNewline (specNewlineSplit rawOutput)
    /\ linesOf (decode texts rawOutput) = specNewlineSplit rawOutput
    /\ Forall (fun line => blank line = false
                           /\ line ∈ split [LF] rawOutput)
         (linesOf (decode texts rawOutput)).
Proof.
  intros texts rawOutput Hd Hn.
  assert (Hshape : decode texts rawOutput
                   = ByNewline (specNewlineSplit rawOutput)).
  { destruct (decode_cases texts rawOutput)
      as [[H _] | [(_ & _ & ->) | (_ & H & _)]].
    - unfold delimiterSplit in H. rewrite length_map in H. contradiction.
    - rewrite newlineSplit_refines. reflexivity.
    - rewrite newlineSplit_refines in H. contradiction. }
  rewrite Hshape. cbn [linesOf].
  split; [reflexivity |]. split; [reflexivity |].
  apply list.Forall_forall. intros line Hline.
  unfold specNewlineSplit in Hline.
  apply list_elem_of_filter in Hline. exact Hline.
Qed.

(** A three-segment batch answered with two delimiter pieces on five lines,
    of which one is empty and one holds a space and a tab only: the three
    other lines are returned, the last one with its indentation. *)
Lemma C8_newline_recovery_witness :
  let texts := [lit "one"; lit "two"; lit "three"] in
  let rawOutput :=
    lit "eins" ++ [LF] ++ [32; 9] ++ [LF]
    ++ lit "zwei---SPLIT---zwei bis" ++ [LF] ++ [LF] ++ lit "  drei" in
  length (split delimiter rawOutput) = 2%nat
  /\ split [LF] rawOutput
     = [lit "eins"; [32; 9]; lit "zwei---SPLIT---zwei bis"; []; lit "  drei"]
  /\ decode texts rawOutput
     = ByNewline [lit "eins"; lit "zwei---SPLIT---zwei bis"; lit "  drei"]
  /\ linesOf (decode texts rawOutput)
     = [lit "eins"; lit "zwei---SPLIT---zwei bis"; lit "  drei"].
Proof.
  cbv zeta.
  split; [reflexivity |]. split; [reflexivity |].
  destruct (C8_newline_recovery
              [lit "one"; lit "two"; lit "three"]
              (lit "eins" ++ [LF] ++ [32; 9] ++ [LF]
               ++ lit "zwei---SPLIT---zwei bis" ++ [LF] ++ [LF]
               ++ lit "  drei"))
    as (Hshape & Hlines & _);
    [vm_compute; discriminate | reflexivity |].
  split; [exact Hshape | exact Hlines].
Defined.

(** ** The empty batch *)

Lemma splitFrom_nonempty (sep : jsstring) (s : jsstring) :
  forall k, splitFrom sep k s <> [].
Proof.
  induction s as [| a s IH]; intros k; [discriminate |].
  destruct k as [| k]; cbn [splitFrom]; [| apply IH].
  destruct (startsWith sep (a :: s)); [discriminate |].
  specialize (IH 0%nat). destruct (splitFrom sep 0 s); [contradiction |].
  discriminate.
Qed.

(** What the code does on an empty batch answered with an empty payload:
    the delimiter split runs and has one piece, the newline split runs and
    has none, and the second one is returned. *)
Lemma decode_empty_batch :
  encode [] = []
  /\ delimiterSplit [] = [[]]
  /\ newlineSplit [] = []
  /\ decode [] [] = ByNewline [].
Proof. repeat split. Qed.

(** C9, as stated, fails: the empty sequence is not returned "without
    invoking either split path"; no exit of [decode] bypasses the splits,
    and on the empty batch the result is the newline split.  Stated as: it is
    not the case that [decode [] []] returns the empty sequence through an
    exit other than the two split exits. *)
Lemma C9_counterexample :
  ~ (encode [] = []
     /\ linesOf (decode [] []) = []
     /\ (forall l, decode [] [] <> ByDelimiter l)
     /\ (forall l, decode [] [] <> ByNewline l)).
Proof.
  intros (_ & _ & _ & H). apply (H []). reflexivity.
Qed.

(** C9 (amended): an empty segment list encodes to an empty payload, and
    decoding an empty payload with an expected count of 0 returns the empty
    sequence; it does so through the newline split, after the delimiter
    split produced one (empty) piece and so missed the count.  Whatever the
    payload, decoding with an expected count of 0 returns the empty
    sequence, and never through the delimiter split. *)
Theorem C9_empty_batch_decodes_to_empty :
  encode [] = []
  /\ linesOf (decode [] (encode [])) = []
  /\ length (delimiterSplit (encode [])) = 1%nat
  /\ decode [] (encode []) = ByNewline (newlineSplit (encode []))
  /\ newlineSplit (encode []) = []
  /\ (forall rawOutput,
        linesOf (decode [] rawOutput) = []
        /\ decode [] rawOutput <> ByDelimiter (delimiterSplit rawOutput)).
Proof.
  do 5 (split; [reflexivity |]). intros rawOutput. split.
  - apply length_zero_iff_nil. apply (decode_length [] rawOutput).
  - destruct (decode_cases [] rawOutput)
      as [[Hlen _] | [(_ & _ & ->) | (_ & _ & ->)]]; try discriminate.
    unfold delimiterSplit in Hlen. rewrite length_map in Hlen.
    pose proof (splitFrom_nonempty delimiter rawOutput 0) as Hne.
    change (split delimiter rawOutput)
      with (splitFrom delimiter 0 rawOutput) in Hlen.
    destruct (splitFrom delimiter 0 rawOutput); [contradiction |].
    discriminate.
Qed.

(** ** Normalisation of the address *)

Example cleanHost_bare_host :
  cleanHost (lit "127.0.0.1:11434") = lit "http://127.0.0.1:11434".
Proof. reflexivity. Qed.

Example cleanHost_trailing_slash :
  cleanHost (lit "http://host/") = lit "http://host".
Proof. reflexivity. Qed.

Example cleanHost_one_slash_only :
  cleanHost (lit "  https://host//  ") = lit "https://host/".
Proof. reflexivity. Qed.

Example cleanHost_pattern_replaced :
  cleanHost (lit "host" ++ colonPattern ++ lit "11434") = lit "http://host:11434".
Proof. reflexivity. Qed.

(** C6: at an address written with the full-width colon U+FF1A the code
    leaves the colon in place: the pattern of the first [replace] is the
    three code units U+00EF U+00BC U+0161, not U+FF1A.  The other steps
    (trim, one trailing slash, scheme) are carried out. *)
Theorem C6_cleanHost_keeps_full_width_colon :
  cleanHost (lit " 127.0.0.1" ++ [fullWidthColon] ++ lit "11434/ ")
  = lit "http://127.0.0.1" ++ [fullWidthColon] ++ lit "11434"
  /\ cleanHost (lit " 127.0.0.1" ++ [fullWidthColon] ++ lit "11434/ ")
     <> lit "http://127.0.0.1:11434"
  /\ cleanHost (lit "127.0.0.1:11434") = lit "http://127.0.0.1:11434"
  /\ cleanHost (lit "http://host/") = lit "http://host".
Proof. repeat split. vm_compute. discriminate. Qed.

(** ** The reachability probe *)

Ltac probe_member :=
  unfold probeOK, probeFORBIDDEN, probeUNREACHABLE, probeINVALID_ADDRESS;
  rewrite !elem_of_cons; tauto.

Lemma probe_outcomes_distinct :
  NoDup [probeOK; probeFORBIDDEN; probeUNREACHABLE; probeINVALID_ADDRESS].
Proof.
  repeat constructor; rewrite ?elem_of_cons, ?elem_of_nil;
    unfold probeOK, probeFORBIDDEN, probeUNREACHABLE, probeINVALID_ADDRESS;
    intuition congruence.
Qed.

(** C7: [checkConnection] returns (it never throws) one of the four
    outcomes.  An address the URL parser rejects gives INVALID_ADDRESS and
    the world is untouched: no request was made.  Otherwise exactly one
    request goes out, to [/api/tags]; a 2xx response gives OK, a 403 gives
    FORBIDDEN, any other response and a transport failure give
    UNREACHABLE. *)
Theorem C7_checkConnection_classifies :
  forall (P : Platform) (host : jsstring) (w : World),
    let sanitized := cleanHost host in
    let answer := network P (fetched w) (tagsRequest sanitized) in
    exists (res : ConnectionResult) (w' : World),
      checkConnection P host w = (Returned res, w')
      /\ res ∈ [probeOK; probeFORBIDDEN; probeUNREACHABLE;
                 probeINVALID_ADDRESS]
      /\ (urlParses P sanitized = false ->
          res = probeINVALID_ADDRESS /\ w' = w)
      /\ (urlParses P sanitized = true ->
          trace w' = trace w ++ [EvFetch (tagsRequest sanitized)]
          /\ fetched w' = S (fetched w)
          /\ (answer = NetworkFailure -> res = probeUNREACHABLE)
          /\ (forall r, answer = HttpResponse r ->
                (200 <= status r <= 299 -> res = probeOK)
                /\ (status r = 403 -> res = probeFORBIDDEN)
                /\ (~ 200 <= status r <= 299 -> status r <> 403 ->
                    res = probeUNREACHABLE))).
Proof.
  intros P host w sanitized answer. subst answer.
  unfold checkConnection, tryCatch, bind, newURL, fetch, ret, throw.
  fold sanitized.
  destruct (urlParses P sanitized) eqn:Hurl; simpl.
  - destruct (network P (fetched w) (tagsRequest sanitized)) as [| r];
      simpl.
    + eexists _, _. split; [reflexivity |].
      split; [probe_member |]. split; [discriminate |].
      intros _. do 3 (split; [reflexivity |]). intros r [=].
    + unfold responseOk.
      destruct (N.leb_spec 200 (status r)), (N.leb_spec (status r) 299);
        simpl;
        try (destruct (N.eqb_spec (status r) 403));
        (eexists _, _; split; [reflexivity |];
         split; [probe_member |]; split; [discriminate |];
         intros _; do 2 (split; [reflexivity |]); split; [discriminate |];
         intros r' [= <-]; repeat split; intros; try reflexivity; lia).
  - eexists _, _. split; [reflexivity |].
    split; [probe_member |]. split; [| discriminate].
    intros _. split; [reflexivity |]. destruct w; reflexivity.
Qed.

(** ** One batch *)

Section Orchestrator.
Variable P : Platform.

Lemma translateBatch_run (cfg : OllamaConfig) (texts : list jsstring)
  (w : World) :
  translateBatch P (host cfg) (model cfg) texts w
  = (Returned (answerLines texts (network P (fetched w) (requestFor cfg texts))),
     sent (requestFor cfg texts) w).
Proof.
  unfold translateBatch, tryCatch, bind, fetch, json, lift, throw, ret,
    answerLines, sent.
  fold (requestFor cfg texts).
  destruct (network P (fetched w) (requestFor cfg texts)) as [| r];
    [reflexivity |].
  destruct (responseOk r); simpl; [| reflexivity].
  destruct (payload r) as [| [response |]]; reflexivity.
Qed.

Lemma answerLines_length (texts : list jsstring) (answer : FetchOutcome) :
  length (answerLines texts answer) = length texts.
Proof.
  unfold answerLines. destruct answer as [| r]; [reflexivity |].
  destruct (responseOk r); [| reflexivity].
  destruct (payload r) as [| [response |]];
    auto using decode_length.
Qed.

Lemma answerLines_failure (texts : list jsstring) (answer : FetchOutcome) :
  generateFails answer -> answerLines texts answer = texts.
Proof.
  intros [-> | (r & -> & Hr)]; simpl; [reflexivity |]. rewrite Hr.
  reflexivity.
Qed.

(** ** Writing a batch back *)

Lemma writeBack_length (i : nat) (ts : list jsstring) :
  forall (index : nat) (nb : list SubtitleBlock),
    length (App.writeBack i index ts nb) = length nb.
Proof.
  induction ts as [| t ts IH]; intros index nb; simpl; [reflexivity |].
  rewrite IH. destruct (nb !! (i + index)%nat); [| reflexivity].
  apply length_alter.
Qed.

Lemma writeBack_outside (i : nat) (ts : list jsstring) :
  forall (index : nat) (nb : list SubtitleBlock) (j : nat),
    (j < i + index \/ i + index + length ts <= j)%nat ->
    App.writeBack i index ts nb !! j = nb !! j.
Proof.
  induction ts as [| t ts IH]; intros index nb j Hj; simpl; [reflexivity |].
  simpl in Hj. rewrite IH by lia.
  destruct (nb !! (i + index)%nat); [| reflexivity].
  apply list_lookup_alter_ne. lia.
Qed.

Lemma writeBack_inside (i : nat) (ts : list jsstring) :
  forall (index : nat) (nb : list SubtitleBlock) (m : nat) (t : jsstring),
    ts !! m = Some t ->
    App.writeBack i index ts nb !! (i + index + m)%nat
    = Block.setTranslatedText t <$> nb !! (i + index + m)%nat.
Proof.
  induction ts as [| t0 ts IH]; intros index nb m t Hm; [discriminate |].
  destruct m as [| m]; simpl in *.
  - injection Hm as ->. rewrite writeBack_outside by lia.
    replace (i + index + 0)%nat with (i + index)%nat by lia.
    destruct (nb !! (i + index)%nat) eqn:Hb.
    + rewrite list_lookup_alter_eq, Hb. reflexivity.
    + rewrite Hb. reflexivity.
  - replace (i + index + S m)%nat with (i + S index + m)%nat by lia.
    rewrite (IH _ _ _ _ Hm).
    destruct (nb !! (i + index)%nat); [| reflexivity].
    rewrite list_lookup_alter_ne by lia. reflexivity.
Qed.

(** ** The loop *)

Lemma batchLoop_step (fuel : nat) (cfg : OllamaConfig)
  (blocks : list SubtitleBlock) (i cp : nat) (nb : list SubtitleBlock)
  (w : World) :
  (i < length blocks)%nat ->
  App.batchLoop P (S fuel) cfg blocks i cp nb w
  = App.batchLoop P fuel cfg blocks (i + App.BATCH_SIZE)
      (cp + length (batchAt blocks i))
      (App.writeBack i 0
         (answerLines (textsAt blocks i)
            (network P (fetched w) (requestFor cfg (textsAt blocks i))))
         nb)
      (afterBatch P cfg blocks i cp nb w).
Proof.
  intros Hi. apply Nat.ltb_lt in Hi.
  cbn [App.batchLoop]. rewrite Hi.
  unfold bind at 1. unfold App.addLog at 1.
  unfold bind at 1. rewrite translateBatch_run.
  unfold bind at 1. unfold App.setSubtitleBlocks at 1.
  unfold bind at 1. unfold App.setStats at 1.
  unfold afterBatch, sent, batchAt, textsAt. cbn [state config stats
    subtitleBlocks logs errorMsg fetched clockReads trace].
  rewrite <- !app_assoc. reflexivity.
Qed.

Lemma batchLoop_exit (fuel : nat) (cfg : OllamaConfig)
  (blocks : list SubtitleBlock) (i cp : nat) (nb : list SubtitleBlock)
  (w : World) :
  (length blocks <= i)%nat ->
  App.batchLoop P fuel cfg blocks i cp nb w = (Returned (cp, nb), w).
Proof.
  intros Hi. apply Nat.ltb_ge in Hi.
  destruct fuel; cbn [App.batchLoop]; rewrite Hi; reflexivity.
Qed.

Lemma batchAt_length (blocks : list SubtitleBlock) (i : nat) :
  length (batchAt blocks i) = Nat.min App.BATCH_SIZE (length blocks - i).
Proof.
  unfold batchAt, App.slice. rewrite length_take, length_drop.
  f_equal. lia.
Qed.

Lemma batchLoop_returns (cfg : OllamaConfig) (blocks : list SubtitleBlock) :
  forall (fuel i cp : nat) (nb : list SubtitleBlock) (w : World),
    (length blocks - i <= fuel)%nat ->
    exists nb' w',
      App.batchLoop P fuel cfg blocks i cp nb w
      = (Returned ((cp + (length blocks - i))%nat, nb'), w').
Proof.
  induction fuel as [| fuel IH]; intros i cp nb w Hfuel.
  - rewrite batchLoop_exit by lia. eexists _, _. do 2 f_equal. f_equal. lia.
  - destruct (Nat.lt_ge_cases i (length blocks)) as [Hi | Hi].
    + rewrite batchLoop_step by exact Hi.
      edestruct (IH (i + App.BATCH_SIZE)%nat) as (nb' & w' & ->);
        [unfold App.BATCH_SIZE; lia |].
      eexists _, _. do 2 f_equal. f_equal.
      rewrite batchAt_length. unfold App.BATCH_SIZE. lia.
    + rewrite batchLoop_exit by lia. eexists _, _. do 2 f_equal. f_equal. lia.
Qed.

Lemma batchLoop_frame (cfg : OllamaConfig) (blocks : list SubtitleBlock) :
  forall (fuel i cp : nat) (nb : list SubtitleBlock) (w : World)
         (r : nat) (nb' : list SubtitleBlock) (w' : World),
    App.batchLoop P fuel cfg blocks i cp nb w = (Returned (r, nb'), w') ->
    state w' = state w /\ errorMsg w' = errorMsg w
    /\ clockReads w' = clockReads w /\ config w' = config w
    /\ Stats.totalLines (stats w') = Stats.totalLines (stats w)
    /\ Stats.startTime (stats w') = Stats.startTime (stats w)
    /\ Stats.endTime (stats w') = Stats.endTime (stats w)
    /\ fetched w' = (fetched w + length (indices fuel i (length blocks)))%nat
    /\ length nb' = length nb
    /\ ((i < length blocks)%nat ->
        Stats.processedLines (stats w') = r /\ subtitleBlocks w' = nb')
    /\ ((length blocks <= i)%nat -> w' = w /\ nb' = nb).
Proof.
  induction fuel as [| fuel IH]; intros i cp nb w r nb' w' Hrun.
  - destruct (Nat.lt_ge_cases i (length blocks)) as [Hi | Hi].
    + apply Nat.ltb_lt in Hi. cbn [App.batchLoop] in Hrun.
      rewrite Hi in Hrun. discriminate.
    + rewrite batchLoop_exit in Hrun by lia. injection Hrun as <- <- <-.
      cbn [indices]. apply Nat.ltb_ge in Hi as Hi'. rewrite Hi'. simpl.
      repeat split; try reflexivity; lia.
  - destruct (Nat.lt_ge_cases i (length blocks)) as [Hi | Hi].
    + rewrite batchLoop_step in Hrun by exact Hi.
      pose proof Hrun as Hrun'.
      apply IH in Hrun as (Hst & Herr & Hclk & Hcfg & Htot & Hstart & Hend
                           & Hfet & Hlen & Hin & Hout).
      cbn [indices]. apply Nat.ltb_lt in Hi as Hi'. rewrite Hi'.
      cbn [afterBatch state errorMsg clockReads config stats fetched
             App.withProcessed Stats.totalLines Stats.startTime
             Stats.endTime] in *.
      rewrite writeBack_length in Hlen.
      repeat split; try assumption.
      * rewrite Hfet. simpl. lia.
      * destruct (Nat.lt_ge_cases (i + App.BATCH_SIZE) (length blocks))
          as [Hi2 | Hi2].
        -- apply Hin, Hi2.
        -- rewrite batchLoop_exit in Hrun' by exact Hi2.
           injection Hrun' as <- <- <-. reflexivity.
      * destruct (Nat.lt_ge_cases (i + App.BATCH_SIZE) (length blocks))
          as [Hi2 | Hi2].
        -- apply Hin, Hi2.
        -- destruct (Hout Hi2) as [-> ->]. reflexivity.
      * lia.
      * lia.
    + rewrite batchLoop_exit in Hrun by lia. injection Hrun as <- <- <-.
      cbn [indices]. apply Nat.ltb_ge in Hi as Hi'. rewrite Hi'. simpl.
      repeat split; try reflexivity; lia.
Qed.

Lemma batchLoop_trace (cfg : OllamaConfig) (blocks : list SubtitleBlock) :
  forall (fuel i cp : nat) (nb : list SubtitleBlock) (w : World)
         (r : nat) (nb' : list SubtitleBlock) (w' : World),
    App.batchLoop P fuel cfg blocks i cp nb w = (Returned (r, nb'), w') ->
    exists delta,
      trace w' = trace w ++ delta
      /\ loggedWindows delta
         = map (windowAt (length blocks)) (indices fuel i (length blocks))
      /\ requestsOf delta
         = map (fun i => requestFor cfg (textsAt blocks i))
             (indices fuel i (length blocks))
      /\ processedHistory delta
         = runningTotals cp
             (map (fun i => length (batchAt blocks i))
                (indices fuel i (length blocks)))
      /\ stateChanges delta = [].
Proof.
  induction fuel as [| fuel IH]; intros i cp nb w r nb' w' Hrun;
    destruct (Nat.lt_ge_cases i (length blocks)) as [Hi | Hi];
    try (rewrite batchLoop_exit in Hrun by lia; injection Hrun as <- <- <-;
         exists []; cbn [indices]; apply Nat.ltb_ge in Hi; rewrite Hi;
         rewrite app_nil_r; repeat split; reflexivity).
  - apply Nat.ltb_lt in Hi. cbn [App.batchLoop] in Hrun.
    rewrite Hi in Hrun. discriminate.
  - rewrite batchLoop_step in Hrun by exact Hi.
    apply IH in Hrun as (delta & Htr & Hwin & Hreq & Hproc & Hstates).
    cbn [afterBatch trace] in Htr. rewrite <- app_assoc in Htr.
    eexists. split; [exact Htr |].
    cbn [indices]. apply Nat.ltb_lt in Hi. rewrite Hi.
    unfold loggedWindows, requestsOf, processedHistory, stateChanges in *.
    rewrite !omap_app, Hwin, Hreq, Hproc, Hstates.
    repeat split; reflexivity.
Qed.

Lemma batchLoop_blocks (cfg : OllamaConfig) (blocks : list SubtitleBlock) :
  forall (fuel i cp : nat) (nb : list SubtitleBlock) (w : World)
         (r : nat) (nb' : list SubtitleBlock) (w' : World),
    App.batchLoop P fuel cfg blocks i cp nb w = (Returned (r, nb'), w') ->
    (forall j, (j < i)%nat -> nb' !! j = nb !! j)
    /\ (forall k j,
          (i + App.BATCH_SIZE * k <= j < i + App.BATCH_SIZE * k + App.BATCH_SIZE)%nat ->
          (j < length blocks)%nat ->
          let start := (i + App.BATCH_SIZE * k)%nat in
          exists t,
            answerLines (textsAt blocks start)
              (network P (fetched w + k)
                 (requestFor cfg (textsAt blocks start)))
              !! (j - start)%nat = Some t
            /\ nb' !! j = Block.setTranslatedText t <$> nb !! j).
Proof.
  induction fuel as [| fuel IH]; intros i cp nb w r nb' w' Hrun;
    destruct (Nat.lt_ge_cases i (length blocks)) as [Hi | Hi];
    try (rewrite batchLoop_exit in Hrun by lia; injection Hrun as <- <- <-;
         split; [reflexivity | intros; lia]).
  - apply Nat.ltb_lt in Hi. cbn [App.batchLoop] in Hrun.
    rewrite Hi in Hrun. discriminate.
  - rewrite batchLoop_step in Hrun by exact Hi.
    apply IH in Hrun as [Hframe Hbatch].
    set (res := answerLines (textsAt blocks i)
                  (network P (fetched w) (requestFor cfg (textsAt blocks i))))
      in *.
    assert (Hres : length res = Nat.min App.BATCH_SIZE (length blocks - i)).
    { unfold res. rewrite answerLines_length. unfold textsAt.
      rewrite length_map. apply batchAt_length. }
    unfold App.BATCH_SIZE in *.
    split.
    + intros j Hj. rewrite Hframe by lia. apply writeBack_outside. lia.
    + intros [| k] j Hj Hjn; cbv zeta.
      * replace (i + 10 * 0)%nat with i in * by lia.
        replace (fetched w + 0)%nat with (fetched w) by lia. fold res.
        destruct (lookup_lt_is_Some_2 res (j - i)) as [t Ht]; [lia |].
        exists t. split; [exact Ht |].
        rewrite Hframe by lia.
        replace j with (i + 0 + (j - i))%nat at 1 2 by lia.
        apply writeBack_inside, Ht.
      * destruct (Hbatch k j) as (t & Ht & Hnb); [lia | lia |].
        cbn [afterBatch fetched] in Ht.
        replace (i + 10 + 10 * k)%nat with (i + 10 * S k)%nat in * by lia.
        replace (S (fetched w) + k)%nat with (fetched w + S k)%nat in Ht
          by lia.
        exists t. split; [exact Ht |].
        rewrite Hnb. f_equal. apply writeBack_outside. lia.
Qed.

Lemma indices_lookup (n : nat) :
  forall (fuel i k : nat),
    (n - i <= fuel)%nat ->
    indices fuel i n !! k
    = if decide (i + App.BATCH_SIZE * k < n)%nat
      then Some (i + App.BATCH_SIZE * k)%nat else None.
Proof.
  unfold App.BATCH_SIZE.
  induction fuel as [| fuel IH]; intros i k Hfuel; cbn [indices].
  - destruct (Nat.ltb_spec i n); [lia |].
    rewrite decide_False by lia. reflexivity.
  - destruct (Nat.ltb_spec i n) as [Hi | Hi].
    + destruct k as [| k]; simpl.
      * rewrite decide_True by lia. f_equal. lia.
      * unfold App.BATCH_SIZE. rewrite IH by lia.
        destruct (decide (i + 10 + 10 * k < n)%nat);
          [rewrite decide_True by lia | rewrite decide_False by lia];
          [f_equal; lia | reflexivity].
    + rewrite decide_False by lia. reflexivity.
Qed.

Lemma indices_batches (blocks : list SubtitleBlock) :
  forall (fuel i : nat),
    (length blocks - i <= fuel)%nat ->
    concat (map (batchAt blocks) (indices fuel i (length blocks)))
    = drop i blocks.
Proof.
  induction fuel as [| fuel IH]; intros i Hfuel; cbn [indices].
  - destruct (Nat.ltb_spec i (length blocks)); [lia |].
    rewrite drop_ge by lia. reflexivity.
  - destruct (Nat.ltb_spec i (length blocks)) as [Hi | Hi].
    + simpl. rewrite IH by (unfold App.BATCH_SIZE; lia).
      unfold batchAt, App.slice.
      replace (i + App.BATCH_SIZE - i)%nat with App.BATCH_SIZE by lia.
      rewrite <- (drop_drop blocks App.BATCH_SIZE i).
      apply take_drop.
    + rewrite drop_ge by lia. reflexivity.
Qed.

(** ** A whole run *)

Lemma startTranslation_unfold (blocks : list SubtitleBlock) (w : World) :
  App.startTranslation P blocks w
  = match App.batchLoop P (length blocks) (config w) blocks 0 0 blocks
            (started P w) with
    | (Returned _, w1) => (Returned tt, finished P w1)
    | (Thrown e, w1) => (Thrown e, w1)
    | (OutOfFuel, w1) => (OutOfFuel, w1)
    end.
Proof.
  unfold App.startTranslation.
  unfold bind at 1. unfold App.getConfig at 1.
  unfold bind at 1. unfold App.dateNow at 1.
  unfold bind at 1. unfold App.setStats at 1.
  unfold bind at 1. unfold App.addLog at 1.
  cbn [state config stats subtitleBlocks logs errorMsg fetched clockReads
         trace].
  rewrite <- (app_assoc (trace w)). unfold bind at 1.
  match goal with
  | |- context [App.batchLoop P _ _ _ 0 0 _ ?x] => change x with (started P w)
  end.
  destruct (App.batchLoop P (length blocks) (config w) blocks 0 0 blocks
              (started P w)) as [[[r nb'] | e |] w1]; try reflexivity.
  unfold bind, App.dateNow, App.setStats, App.setState, App.addLog, finished.
  cbn [state config stats subtitleBlocks logs errorMsg fetched clockReads
         trace].
  rewrite <- !(app_assoc (trace w1)). reflexivity.
Qed.

(** The run of [startTranslation] always ends, in the state [COMPLETED];
    the facts about its world that the properties below draw on. *)
Lemma startTranslation_run (blocks : list SubtitleBlock) (w : World) :
  exists (nb' : list SubtitleBlock) (w1 : World),
    App.batchLoop P (length blocks) (config w) blocks 0 0 blocks (started P w)
    = (Returned (length blocks, nb'), w1)
    /\ App.startTranslation P blocks w = (Returned tt, finished P w1).
Proof.
  destruct (batchLoop_returns (config w) blocks (length blocks) 0 0 blocks
              (started P w)) as (nb' & w1 & Hrun); [lia |].
  replace (0 + (length blocks - 0))%nat with (length blocks) in Hrun by lia.
  exists nb', w1. split; [exact Hrun |].
  rewrite startTranslation_unfold, Hrun. reflexivity.
Qed.

Lemma textsAt_lookup (blocks : list SubtitleBlock) (start j : nat) :
  (start <= j < start + App.BATCH_SIZE)%nat ->
  textsAt blocks start !! (j - start)%nat
  = Block.originalText <$> blocks !! j.
Proof.
  intros Hj. unfold textsAt, batchAt, App.slice.
  change (map Block.originalText ?l) with (Block.originalText <$> l).
  rewrite list_lookup_fmap, lookup_take_lt by lia.
  rewrite lookup_drop. do 2 f_equal. lia.
Qed.

End Orchestrator.

(** C3: when the generate call of batch [k] fails (the transport fails or
    the response is not a success), the run still returns in the state
    [COMPLETED] with every batch dispatched; the entries of batch [k] end up
    with their original text as translated text; and the entries of every
    other batch end up with what [translateBatch] makes of the answer to
    that batch's own request. *)
Theorem C3_backend_failure_is_absorbed :
  forall (P : Platform) (blocks : list SubtitleBlock) (w : World) (k : nat),
    let n := length blocks in
    let cfg := config w in
    let textsOf := fun k' => textsAt blocks (App.BATCH_SIZE * k') in
    let answerOf := fun k' =>
      network P (fetched w + k') (requestFor cfg (textsOf k')) in
    (App.BATCH_SIZE * k < n)%nat ->
    generateFails (answerOf k) ->
    exists w',
      App.startTranslation P blocks w = (Returned tt, w')
      /\ state w' = COMPLETED
      /\ fetched w' = (fetched w + length (batchesOf blocks))%nat
      /\ length (subtitleBlocks w') = n
      /\ (forall j b,
            (App.BATCH_SIZE * k <= j < App.BATCH_SIZE * k + App.BATCH_SIZE)%nat ->
            blocks !! j = Some b ->
            subtitleBlocks w' !! j
            = Some (Block.setTranslatedText (Block.originalText b) b))
      /\ (forall k' j b,
            k' <> k ->
            (App.BATCH_SIZE * k' <= j < App.BATCH_SIZE * k' + App.BATCH_SIZE)%nat ->
            blocks !! j = Some b ->
            exists t,
              answerLines (textsOf k') (answerOf k')
                !! (j - App.BATCH_SIZE * k')%nat = Some t
              /\ subtitleBlocks w' !! j = Some (Block.setTranslatedText t b)).
Proof.
  intros P blocks w k n cfg textsOf answerOf Hk Hfail.
  destruct (startTranslation_run P blocks w) as (nb' & w1 & Hloop & Hrun).
  exists (finished P w1). split; [exact Hrun |].
  destruct (batchLoop_frame P _ _ _ _ _ _ _ _ _ _ Hloop)
    as (_ & _ & _ & _ & _ & _ & _ & Hfet & Hlen & Hin & _).
  destruct (batchLoop_blocks P _ _ _ _ _ _ _ _ _ _ Hloop) as [_ Hbatch].
  destruct Hin as [_ Hsub]; [unfold App.BATCH_SIZE in Hk; fold n; lia |].
  cbn [finished state fetched subtitleBlocks started] in *.
  rewrite Hsub. clear Hsub.
  assert (Hat : forall k' j b,
    (App.BATCH_SIZE * k' <= j < App.BATCH_SIZE * k' + App.BATCH_SIZE)%nat ->
    blocks !! j = Some b ->
    exists t,
      answerLines (textsOf k') (answerOf k')
        !! (j - App.BATCH_SIZE * k')%nat = Some t
      /\ nb' !! j = Some (Block.setTranslatedText t b)).
  { intros k' j b Hj Hb.
    destruct (Hbatch k' j) as (t & Ht & Hnb);
      [lia | eapply lookup_lt_Some, Hb |].
    exists t. split; [exact Ht |]. rewrite Hnb, Hb. reflexivity. }
  repeat split.
  - rewrite Hfet. unfold batchesOf. rewrite length_map. reflexivity.
  - exact Hlen.
  - intros j b Hj Hb.
    destruct (Hat k j b Hj Hb) as (t & Ht & ->).
    rewrite answerLines_failure in Ht by exact Hfail.
    unfold textsOf in Ht. rewrite textsAt_lookup, Hb in Ht by exact Hj.
    injection Ht as <-. reflexivity.
  - intros k' j b _ Hj Hb. exact (Hat k' j b Hj Hb).
Qed.

(** ** The parser never throws *)

Lemma parseBlock_total (acc : list SubtitleBlock) (block : jsstring) :
  exists new, parseBlock acc block = Returned (acc ++ new)
              /\ (length new <= 1)%nat
              /\ (malformed block -> new = []).
Proof.
  unfold parseBlock, malformed.
  generalize (split [LF] (trim block)). intros lines.
  destruct (Nat.leb_spec 3 (length lines)) as [Hlen | Hlen].
  - destruct lines as [| line0 [| line1 lines]]; simpl in Hlen; try lia.
    cbn [lookup list_lookup deref obind].
    destruct (search timePattern line1) as [m |] eqn:Hm.
    + eexists [_]. split; [reflexivity |]. split; [simpl; lia |].
      intros [Hshort | (l1 & [= <-] & Hnone)]; [simpl in Hshort; lia |].
      congruence.
    + exists []. rewrite app_nil_r. repeat split; simpl; lia.
  - exists []. rewrite app_nil_r. repeat split; simpl; lia.
Qed.

Lemma forEach_parseBlock (blocks : list jsstring) :
  forall acc,
    exists new, forEach parseBlock blocks acc = Returned (acc ++ new)
                /\ (Forall malformed blocks -> new = []).
Proof.
  induction blocks as [| block blocks IH]; intros acc; cbn [forEach].
  - exists []. rewrite app_nil_r. split; reflexivity.
  - destruct (parseBlock_total acc block) as (new1 & -> & _ & Hbad).
    cbn [obind].
    destruct (IH (acc ++ new1)) as (new2 & -> & Hbad2).
    exists (new1 ++ new2). rewrite app_assoc. split; [reflexivity |].
    intros Hall. inversion Hall; subst.
    rewrite Hbad, Hbad2 by assumption. reflexivity.
Qed.

Lemma parseSRT_total (content : jsstring) :
  exists entries, parseSRT content = Returned entries.
Proof.
  unfold parseSRT.
  destruct (forEach_parseBlock
              (split [LF; LF] (normalizeLineEndings content)) [])
    as (new & -> & _).
  eexists. reflexivity.
Qed.

(** ** What a run leaves behind *)

Lemma indices_nil (fuel i n : nat) : (n <= i)%nat -> indices fuel i n = [].
Proof.
  intros Hi. apply Nat.ltb_ge in Hi.
  destruct fuel; cbn [indices]; rewrite Hi; reflexivity.
Qed.

Lemma windows_of_indices (blocks : list SubtitleBlock) :
  forall (fuel i : nat),
    map (windowAt (length blocks)) (indices fuel i (length blocks))
    = windowsFrom i (map (batchAt blocks) (indices fuel i (length blocks))).
Proof.
  induction fuel as [| fuel IH]; intros i; cbn [indices];
    destruct (Nat.ltb_spec i (length blocks)) as [Hi | Hi];
    try reflexivity.
  cbn [map windowsFrom]. rewrite IH, batchAt_length.
  unfold windowAt at 1. unfold App.BATCH_SIZE in *.
  f_equal; [f_equal; lia |].
  destruct (Nat.le_gt_cases (i + 10) (length blocks)) as [Hfull | Hshort].
  - f_equal. lia.
  - rewrite !indices_nil by lia. reflexivity.
Qed.

Lemma runningTotals_sorted (sizes : list nat) :
  forall from,
    StronglySorted le
      (from :: runningTotals from sizes ++ [(from + sum_list sizes)%nat]).
Proof.
  induction sizes as [| s sizes IH]; intros from; simpl.
  - repeat constructor. lia.
  - specialize (IH (from + s)%nat).
    replace (from + (s + sum_list sizes))%nat
      with (from + s + sum_list sizes)%nat by lia.
    constructor; [exact IH |].
    apply StronglySorted_inv in IH as [_ Hall].
    constructor; [lia |].
    revert Hall. apply List.Forall_impl. intros; lia.
Qed.

Lemma sum_batch_sizes (blocks : list SubtitleBlock) :
  forall (fuel i : nat),
    (length blocks - i <= fuel)%nat ->
    sum_list (map (fun i => length (batchAt blocks i))
                (indices fuel i (length blocks)))
    = (length blocks - i)%nat.
Proof.
  induction fuel as [| fuel IH]; intros i Hfuel; cbn [indices];
    destruct (Nat.ltb_spec i (length blocks)) as [Hi | Hi];
    simpl; try lia.
  rewrite IH, batchAt_length by (unfold App.BATCH_SIZE; lia).
  unfold App.BATCH_SIZE. lia.
Qed.

Section Runs.
Variable P : Platform.

Lemma startTranslation_trace (blocks : list SubtitleBlock) (w : World) :
  exists w' delta,
    App.startTranslation P blocks w = (Returned tt, w')
    /\ trace w' = trace w ++ delta
    /\ state w' = COMPLETED
    /\ errorMsg w' = errorMsg w
    /\ Stats.totalLines (stats w') = Stats.totalLines (stats w)
    /\ Stats.processedLines (stats w') = length blocks
    /\ requestsOf delta
       = map (fun b => requestFor (config w) (map Block.originalText b))
           (batchesOf blocks)
    /\ loggedWindows delta = windowsFrom 0 (batchesOf blocks)
    /\ processedHistory delta
       = 0%nat :: runningTotals 0 (map length (batchesOf blocks))
           ++ [length blocks]
    /\ stateChanges delta = [COMPLETED].
Proof.
  destruct (startTranslation_run P blocks w) as (nb' & w1 & Hloop & Hrun).
  destruct (batchLoop_frame P _ _ _ _ _ _ _ _ _ _ Hloop)
    as (Hst & Herr & _ & _ & Htot & _ & _ & _ & _ & Hin & Hout).
  destruct (batchLoop_trace P _ _ _ _ _ _ _ _ _ _ Hloop)
    as (delta & Htr & Hwin & Hreq & Hproc & Hstates).
  assert (Hdone : Stats.processedLines (stats w1) = length blocks).
  { destruct (Nat.lt_ge_cases 0 (length blocks)) as [Hn | Hn].
    - apply Hin, Hn.
    - destruct (Hout Hn) as [-> _]. simpl. lia. }
  eexists (finished P w1), _. split; [exact Hrun |].
  cbn [finished started state errorMsg stats trace App.withEnd
         Stats.totalLines Stats.processedLines App.withStart] in *.
  split.
  { rewrite Htr, <- !(app_assoc (trace w)). reflexivity. }
  do 4 (split; [congruence |]).
  unfold requestsOf, loggedWindows, processedHistory, stateChanges in *.
  rewrite !omap_app, Hwin, Hreq, Hproc, Hstates. unfold batchesOf. simpl.
  rewrite !app_nil_r, windows_of_indices, !map_map, Hdone.
  repeat split; reflexivity.
Qed.

Lemma handleFileChange_run (content : jsstring) (w : World) :
  exists parsed w' delta,
    parseSRT content = Returned parsed
    /\ App.handleFileChange P content w = (Returned tt, w')
    /\ trace w' = trace w
         ++ [EvSetSubtitleBlocks parsed;
             EvSetStats (App.withTotal (length parsed) (stats w));
             EvSetState PROCESSING]
         ++ delta
    /\ state w' = COMPLETED
    /\ errorMsg w' = errorMsg w
    /\ Stats.totalLines (stats w') = length parsed
    /\ Stats.processedLines (stats w') = length parsed
    /\ requestsOf delta
       = map (fun b => requestFor (config w) (map Block.originalText b))
           (batchesOf parsed)
    /\ loggedWindows delta = windowsFrom 0 (batchesOf parsed)
    /\ processedHistory delta
       = 0%nat :: runningTotals 0 (map length (batchesOf parsed))
           ++ [length parsed]
    /\ stateChanges delta = [COMPLETED].
Proof.
  destruct (parseSRT_total content) as (parsed & Hparse).
  exists parsed.
  unfold App.handleFileChange, tryCatch, lift.
  unfold bind at 1. rewrite Hparse.
  unfold bind at 1. unfold App.setSubtitleBlocks at 1.
  unfold bind at 1. unfold App.setStats at 1.
  unfold bind at 1. unfold App.setState at 1.
  cbn [state config stats subtitleBlocks logs errorMsg fetched clockReads
         trace].
  unfold detach.
  match goal with
  | |- context [App.startTranslation P parsed ?x] =>
      destruct (startTranslation_trace parsed x)
        as (w' & delta & -> & Htr & Hst & Herr & Htot & Hproc & Hreq
            & Hwin & Hhist & Hstates)
  end.
  cbn [state config stats subtitleBlocks logs errorMsg fetched clockReads
         trace App.withTotal Stats.totalLines] in *.
  exists w', delta. split; [reflexivity |]. split; [reflexivity |].
  split; [rewrite Htr, <- !(app_assoc (trace w)); reflexivity |].
  repeat split; assumption.
Qed.

End Runs.

(** ** A run with a failing batch *)

Example flaky_run_translations :
  map Block.translatedText
    (subtitleBlocks
       (snd (App.startTranslation flakyPlatform (sampleDocument 23)
               App.initialWorld)))
  = map (fun k => lit "T" ++ [N.of_nat (48 + k)]) (seq 0 10)
    ++ map Block.originalText (App.slice (sampleDocument 23) 10 20)
    ++ map (fun k => lit "T" ++ [N.of_nat (48 + k)]) (seq 0 3).
Proof. vm_compute. reflexivity. Qed.

Example flaky_run_progress :
  let w' := snd (App.startTranslation flakyPlatform (sampleDocument 23)
                   App.initialWorld) in
  processedHistory (trace w') = [0; 10; 20; 23; 23]%nat
  /\ loggedWindows (trace w') = [(1, 10); (11, 20); (21, 23)]%nat
  /\ stateChanges (trace w') = [COMPLETED]
  /\ length (requestsOf (trace w')) = 3%nat.
Proof. vm_compute. repeat split. Qed.

(** The second of three batches fails: its ten entries keep their original
    text, the run completes. *)
Lemma C3_backend_failure_witness :
  exists w',
    App.startTranslation flakyPlatform (sampleDocument 23) App.initialWorld
    = (Returned tt, w')
    /\ state w' = COMPLETED
    /\ fetched w' = 3%nat
    /\ (forall j b,
          (10 <= j < 20)%nat ->
          sampleDocument 23 !! j = Some b ->
          subtitleBlocks w' !! j
          = Some (Block.setTranslatedText (Block.originalText b) b)).
Proof.
  destruct (C3_backend_failure_is_absorbed flakyPlatform (sampleDocument 23)
              App.initialWorld 1)
    as (w' & Hrun & Hstate & Hfetched & _ & Hfallback & _).
  - vm_compute. lia.
  - left. reflexivity.
  - exists w'. repeat split; try assumption.
Defined.

(** ** Batches and progress *)

Lemma batchesOf_lookup (blocks : list SubtitleBlock) (k : nat)
  (b : list SubtitleBlock) :
  batchesOf blocks !! k = Some b ->
  b = App.slice blocks (App.BATCH_SIZE * k)
        (App.BATCH_SIZE * k + App.BATCH_SIZE)
  /\ (1 <= length b <= App.BATCH_SIZE)%nat.
Proof.
  unfold batchesOf.
  change (map (batchAt blocks) ?l) with (batchAt blocks <$> l).
  rewrite list_lookup_fmap, indices_lookup by lia.
  destruct (decide (0 + App.BATCH_SIZE * k < length blocks)%nat) as [Hk | Hk];
    [| discriminate].
  intros [= <-]. split; [reflexivity |].
  rewrite batchAt_length. unfold App.BATCH_SIZE in *. lia.
Qed.

Lemma batchesOf_concat (blocks : list SubtitleBlock) :
  concat (batchesOf blocks) = blocks.
Proof. unfold batchesOf. rewrite indices_batches by lia. reflexivity. Qed.

Lemma batchesOf_23 (blocks : list SubtitleBlock) :
  length blocks = 23%nat ->
  map length (batchesOf blocks) = [10; 10; 3]%nat.
Proof.
  intros H. unfold batchesOf. rewrite H.
  change (indices 23 0 23) with [0; 10; 20]%nat.
  cbn [map]. rewrite !batchAt_length, H. reflexivity.
Qed.

(** C4: the batches the orchestrator dispatches are, in order, the windows
    [10k, 10k+10) of the document cut at its end: each has between 1 and 10
    entries, the window announced for each starts right after the previous
    one, and put end to end they are the document.  A document of 23
    entries gives three batches of 10, 10 and 3 entries. *)
Theorem C4_batches_partition_document :
  forall (P : Platform) (blocks : list SubtitleBlock) (w : World),
    exists (w' : World) (delta : list Event)
           (batches : list (list SubtitleBlock)),
      App.startTranslation P blocks w = (Returned tt, w')
      /\ trace w' = trace w ++ delta
      /\ requestsOf delta
         = map (fun b => requestFor (config w) (map Block.originalText b))
             batches
      /\ loggedWindows delta = windowsFrom 0 batches
      /\ concat batches = blocks
      /\ (forall k b,
            batches !! k = Some b ->
            b = App.slice blocks (App.BATCH_SIZE * k)
                  (App.BATCH_SIZE * k + App.BATCH_SIZE)
            /\ (1 <= length b <= App.BATCH_SIZE)%nat)
      /\ (length blocks = 23%nat ->
          map length batches = [10; 10; 3]%nat
          /\ loggedWindows delta = [(1, 10); (11, 20); (21, 23)]%nat).
Proof.
  intros P blocks w.
  destruct (startTranslation_trace P blocks w)
    as (w' & delta & Hrun & Htr & _ & _ & _ & _ & Hreq & Hwin & _).
  exists w', delta, (batchesOf blocks).
  do 4 (split; [assumption |]).
  split; [apply batchesOf_concat |].
  split; [intros k b Hb; apply batchesOf_lookup, Hb |].
  intros Hlen. pose proof (batchesOf_23 blocks Hlen) as H23.
  split; [exact H23 |].
  rewrite Hwin.
  destruct (batchesOf blocks) as [| b0 [| b1 [| b2 [| b3 rest]]]];
    try discriminate.
  injection H23 as H0 H1 H2. cbn [windowsFrom]. rewrite H0, H1, H2.
  reflexivity.
Qed.

(** The 23-entry scenario on the sample document. *)
Lemma C4_batches_witness :
  exists (w' : World) (delta : list Event)
         (batches : list (list SubtitleBlock)),
    App.startTranslation flakyPlatform (sampleDocument 23) App.initialWorld
    = (Returned tt, w')
    /\ trace w' = trace App.initialWorld ++ delta
    /\ concat batches = sampleDocument 23
    /\ map length batches = [10; 10; 3]%nat
    /\ loggedWindows delta = [(1, 10); (11, 20); (21, 23)]%nat.
Proof.
  destruct (C4_batches_partition_document flakyPlatform (sampleDocument 23)
              App.initialWorld)
    as (w' & delta & batches & Hrun & Htr & _ & _ & Hcat & _ & H23).
  destruct H23 as [Hsizes Hwin]; [reflexivity |].
  exists w', delta, batches. repeat split; assumption.
Defined.

(** C5: over a run started from the file's text, the processed count goes
    through 0, then after each batch the sum of the sizes of the batches
    completed so far, and is read once more when the run ends; this sequence
    never decreases, and the final count is the number of parsed entries,
    which is what was stored as the total when the file was parsed. *)
Theorem C5_processed_count_progress :
  forall (P : Platform) (content : jsstring) (w : World),
    exists (parsed : list SubtitleBlock) (w' : World) (delta : list Event)
           (batches : list (list SubtitleBlock)),
      SrtParser.parseSRT content = Returned parsed
      /\ App.handleFileChange P content w = (Returned tt, w')
      /\ trace w' = trace w
           ++ [EvSetSubtitleBlocks parsed;
               EvSetStats (App.withTotal (length parsed) (stats w));
               EvSetState PROCESSING]
           ++ delta
      /\ requestsOf delta
         = map (fun b => requestFor (config w) (map Block.originalText b))
             batches
      /\ processedHistory delta
         = 0%nat :: runningTotals 0 (map length batches) ++ [length parsed]
      /\ StronglySorted le (processedHistory delta)
      /\ Stats.processedLines (stats w') = length parsed
      /\ Stats.totalLines (stats w') = length parsed.
Proof.
  intros P content w.
  destruct (handleFileChange_run P content w)
    as (parsed & w' & delta & Hparse & Hrun & Htr & _ & _ & Htot & Hproc
        & Hreq & _ & Hhist & _).
  exists parsed, w', delta, (batchesOf parsed).
  repeat split; try assumption.
  rewrite Hhist.
  pose proof (runningTotals_sorted (map length (batchesOf parsed)) 0)
    as Hsorted.
  replace (0 + sum_list (map length (batchesOf parsed)))%nat
    with (length parsed) in Hsorted; [exact Hsorted |].
  unfold batchesOf. rewrite map_map.
  rewrite (sum_batch_sizes parsed) by lia. lia.
Qed.

(** C10: [parseSRT] returns for every input (no exception is thrown); a
    block with fewer than three lines or without a timing match on its
    second line leaves the result as it was; a document made only of such
    blocks parses to the empty sequence; and [handleFileChange] never takes
    its [catch] branch: the states set are [PROCESSING] then [COMPLETED],
    and the error message is left alone. *)
Theorem C10_parseSRT_total :
  forall (content : jsstring),
    (exists entries, parseSRT content = Returned entries)
    /\ (forall acc block,
          malformed block -> parseBlock acc block = Returned acc)
    /\ (Forall malformed (split [LF; LF] (normalizeLineEndings content)) ->
        parseSRT content = Returned [])
    /\ (forall (P : Platform) (w : World),
          exists w' delta,
            App.handleFileChange P content w = (Returned tt, w')
            /\ trace w' = trace w ++ delta
            /\ stateChanges delta = [PROCESSING; COMPLETED]
            /\ state w' = COMPLETED
            /\ errorMsg w' = errorMsg w).
Proof.
  intros content. split; [apply parseSRT_total |]. split; [| split].
  - intros acc block Hbad.
    destruct (parseBlock_total acc block) as (new & -> & _ & Hnew).
    rewrite (Hnew Hbad), app_nil_r. reflexivity.
  - intros Hall. unfold parseSRT.
    destruct (forEach_parseBlock
                (split [LF; LF] (normalizeLineEndings content)) [])
      as (new & -> & Hnew).
    rewrite (Hnew Hall). reflexivity.
  - intros P w.
    destruct (handleFileChange_run P content w)
      as (parsed & w' & delta & _ & Hrun & Htr & Hst & Herr & _ & _ & _ & _
          & _ & Hstates).
    eexists w', _. split; [exact Hrun |]. split; [exact Htr |].
    unfold stateChanges in *. rewrite omap_app, Hstates.
    repeat split; assumption.
Qed.

Lemma C10_parseSRT_witness :
  parseSRT brokenSrt = Returned []
  /\ exists w' delta,
       App.handleFileChange flakyPlatform brokenSrt App.initialWorld
       = (Returned tt, w')
       /\ trace w' = trace App.initialWorld ++ delta
       /\ stateChanges delta = [PROCESSING; COMPLETED]
       /\ state w' = COMPLETED
       /\ errorMsg w' = errorMsg App.initialWorld.
Proof.
  destruct (C10_parseSRT_total brokenSrt) as (_ & _ & Hempty & Hrun).
  split.
  - apply Hempty.
    change (split [LF; LF] (normalizeLineEndings brokenSrt))
      with [lit "not a subtitle"; lit "7
00:00:01 -> 00:00:02
hello"].
    constructor; [| constructor; [| constructor]].
    + left. vm_compute. lia.
    + right. eexists. split; reflexivity.
  - apply Hrun.
Defined.

(** A well-formed document, for comparison. *)
Example parseSRT_sample :
  parseSRT (lit "1
00:00:01,000 --> 00:00:02,500
hello
world

2
00:00:03,000 --> 00:00:04,000
  bye
")
  = Returned
      [ {| Block.id := lit "1";
           Block.startTime := lit "00:00:01,000";
           Block.endTime := lit "00:00:02,500";
           Block.originalText := lit "hello
world";
           Block.translatedText := [] |};
        {| Block.id := lit "2";
           Block.startTime := lit "00:00:03,000";
           Block.endTime := lit "00:00:04,000";
           Block.originalText := lit "  bye";
           Block.translatedText := [] |} ].
Proof. reflexivity. Qed.

(** ** The round trip of the codec *)

Section Split.
Variable sep : jsstring.
Hypothesis sep_nonempty : sep <> [].

Lemma startsWith_app (r : jsstring) : startsWith sep (sep ++ r) = true.
Proof.
  clear sep_nonempty. induction sep as [| d ds IH]; simpl; [reflexivity |].
  unfold codeEq. rewrite N.eqb_refl. exact IH.
Qed.

Lemma splitFrom_skip (k : nat) (s : jsstring) :
  splitFrom sep k s = splitFrom sep 0 (drop k s).
Proof.
  revert k. induction s as [| c s IH]; intros [| k]; try reflexivity.
  simpl. apply IH.
Qed.

Lemma splitFrom_at_sep (r : jsstring) :
  splitFrom sep 0 (sep ++ r) = [] :: splitFrom sep 0 r.
Proof.
  pose proof (startsWith_app r) as Hstart.
  pose proof splitFrom_skip as Hskip.
  revert Hstart Hskip. destruct sep as [| d ds]; [contradiction |].
  intros Hstart Hskip.
  cbn [app splitFrom] in *. rewrite Hstart. f_equal.
  rewrite Hskip.
  replace (length (d :: ds) - 1)%nat with (length ds) by (simpl; lia).
  rewrite drop_app_length. reflexivity.
Qed.

Lemma splitFrom_no_start (c : N) (s : jsstring) :
  startsWith sep (c :: s) = false ->
  splitFrom sep 0 (c :: s) = pushFront c (splitFrom sep 0 s).
Proof. intros H. cbn [splitFrom]. rewrite H. reflexivity. Qed.

Lemma startsWith_nil : startsWith sep [] = false.
Proof. destruct sep; [contradiction | reflexivity]. Qed.

(** A separator that starts inside [x ++ c :: tail] at its very beginning
    either lies in [x] or runs over [c]. *)
Lemma startsWith_through (c : N) (tail : jsstring) :
  forall (p x : jsstring),
    startsWith p (x ++ c :: tail) = true ->
    startsWith p x = true \/ c ∈ p.
Proof.
  induction p as [| d p IH]; intros x H; [left; destruct x; reflexivity |].
  destruct x as [| a x]; simpl in *.
  - apply andb_prop in H as [Hd _]. apply N.eqb_eq in Hd as ->.
    right. apply elem_of_cons. left. reflexivity.
  - apply andb_prop in H as [Hd Hrest].
    destruct (IH _ Hrest) as [Hx | Hc].
    + left. rewrite Hd, Hx. reflexivity.
    + right. apply elem_of_cons. right. exact Hc.
Qed.

(** A piece that does not contain the separator and ends in a code unit
    foreign to it is cut off whole. *)
Lemma splitFrom_piece (c : N) (r : jsstring) :
  c ∉ sep ->
  forall x,
    includes sep x = false ->
    splitFrom sep 0 (x ++ c :: sep ++ r)
    = (x ++ [c]) :: splitFrom sep 0 r.
Proof.
  intros Hc. induction x as [| a x IH]; intros Hx.
  - cbn [app]. rewrite splitFrom_no_start.
    + rewrite splitFrom_at_sep. reflexivity.
    + destruct (startsWith sep (c :: sep ++ r)) eqn:Hs; [| reflexivity].
      destruct (startsWith_through c (sep ++ r) sep [] Hs) as [H | H].
      * rewrite startsWith_nil in H. discriminate.
      * contradiction.
  - cbn [includes] in Hx. apply orb_false_elim in Hx as [Ha Hx].
    cbn [app]. rewrite splitFrom_no_start.
    + rewrite (IH Hx). reflexivity.
    + destruct (startsWith sep (a :: x ++ c :: sep ++ r)) eqn:Hs;
        [| reflexivity].
      destruct (startsWith_through c (sep ++ r) sep (a :: x) Hs) as [H | H].
      * congruence.
      * contradiction.
Qed.

Lemma splitFrom_whole :
  forall x, includes sep x = false -> splitFrom sep 0 x = [x].
Proof.
  induction x as [| a x IH]; intros Hx; [reflexivity |].
  cbn [includes] in Hx. apply orb_false_elim in Hx as [Ha Hx].
  rewrite splitFrom_no_start by exact Ha. rewrite (IH Hx). reflexivity.
Qed.

End Split.

Lemma trim_leading (c : N) (s : jsstring) :
  isWhiteSpace c = true -> trim (c :: s) = trim s.
Proof. intros H. unfold trim. simpl. rewrite H. reflexivity. Qed.

Lemma trimEnd_trailing (c : N) (s : jsstring) :
  isWhiteSpace c = true -> trimEnd (s ++ [c]) = trimEnd s.
Proof.
  intros H. unfold trimEnd. rewrite rev_app_distr. simpl. rewrite H.
  reflexivity.
Qed.

Lemma trim_trailing (c : N) (s : jsstring) :
  isWhiteSpace c = true -> trim (s ++ [c]) = trim s.
Proof.
  intros H. unfold trim. induction s as [| a s IH]; simpl.
  - rewrite H. reflexivity.
  - destruct (isWhiteSpace a); [exact IH |].
    apply (trimEnd_trailing c (a :: s) H).
Qed.

Lemma delimiter_nonempty : delimiter <> [].
Proof. discriminate. Qed.

Lemma LF_not_in_delimiter : LF ∉ delimiter.
Proof.
  unfold delimiter, lit, LF. simpl. rewrite !not_elem_of_cons.
  repeat split; try discriminate. apply not_elem_of_nil.
Qed.

Lemma includes_after_LF (s : jsstring) :
  includes delimiter (LF :: s) = includes delimiter s.
Proof. reflexivity. Qed.

Lemma split_delimiter (s : jsstring) :
  split delimiter s = splitFrom delimiter 0 s.
Proof. reflexivity. Qed.

Lemma encode_more (s s2 : jsstring) (S : list jsstring) :
  encode (s :: s2 :: S) = s ++ separator ++ encode (s2 :: S).
Proof. reflexivity. Qed.

(** Splitting the payload of a batch of trimmed, delimiter-free segments,
    possibly behind the line feed that closes the previous separator. *)
Lemma delimiterSplit_encode :
  forall (S : list jsstring) (pre : jsstring),
    S <> [] ->
    Forall trimmed S ->
    Forall delimiterFree S ->
    pre = [] \/ pre = [LF] ->
    map trim (splitFrom delimiter 0 (pre ++ encode S)) = S.
Proof.
  induction S as [| s S IH]; intros pre Hne Htrim Hfree Hpre;
    [contradiction |].
  inversion Htrim as [| ? ? Hs Htrim']; subst.
  inversion Hfree as [| ? ? Hd Hfree']; subst.
  assert (Hx : includes delimiter (pre ++ s) = false).
  { destruct Hpre as [-> | ->]; [exact Hd |].
    cbn [app]. rewrite includes_after_LF. exact Hd. }
  assert (Ht : trim (pre ++ s) = s).
  { destruct Hpre as [-> | ->]; [exact Hs |].
    cbn [app]. rewrite trim_leading by reflexivity. exact Hs. }
  destruct S as [| s2 S].
  - unfold encode. cbn [join].
    rewrite (splitFrom_whole delimiter _ Hx).
    cbn [map]. rewrite Ht. reflexivity.
  - rewrite encode_more. unfold separator.
    replace (pre ++ s ++ ([LF] ++ delimiter ++ [LF]) ++ encode (s2 :: S))
      with ((pre ++ s) ++ LF :: delimiter ++ ([LF] ++ encode (s2 :: S)))
      by (rewrite <- !app_assoc; reflexivity).
    rewrite (splitFrom_piece delimiter delimiter_nonempty LF _
               LF_not_in_delimiter _ Hx).
    cbn [map]. rewrite trim_trailing by reflexivity. rewrite Ht.
    f_equal. apply IH; [discriminate | assumption | assumption |].
    right. reflexivity.
Qed.

(** *** The response is trimmed before it is split *)

Lemma startsWith_true (p : jsstring) :
  forall s, startsWith p s = true -> exists r, s = p ++ r.
Proof.
  induction p as [| d p IH]; intros s H; [exists s; reflexivity |].
  destruct s as [| a s]; [discriminate |]. simpl in H.
  apply andb_prop in H as [Hd Hrest]. apply N.eqb_eq in Hd as ->.
  destruct (IH _ Hrest) as [r ->]. exists r. reflexivity.
Qed.

Lemma appLast_pushFront (c a : N) (pieces : list jsstring) :
  pieces <> [] ->
  appLast c (pushFront a pieces) = pushFront a (appLast c pieces).
Proof.
  destruct pieces as [| p [| q ps]]; [contradiction | reflexivity..].
Qed.

Lemma splitFrom_trailing (sep : jsstring) (c : N) :
  sep <> [] -> c ∉ sep ->
  forall (n : nat) (p : jsstring),
    (length p <= n)%nat ->
    splitFrom sep 0 (p ++ [c]) = appLast c (splitFrom sep 0 p).
Proof.
  intros Hne Hc. induction n as [| n IH]; intros p Hlen.
  - destruct p; [| simpl in Hlen; lia].
    cbn [app]. rewrite splitFrom_no_start; [reflexivity |].
    destruct (startsWith sep [c]) eqn:Hs; [| reflexivity].
    destruct (startsWith_through c [] sep [] Hs) as [H | H];
      [| contradiction].
    rewrite (startsWith_nil sep Hne) in H. discriminate.
  - destruct p as [| a p].
    { apply (IH []). simpl. lia. }
    destruct (startsWith sep (a :: p)) eqn:Hs.
    + destruct (startsWith_true _ _ Hs) as [r Hr]. rewrite Hr.
      rewrite <- app_assoc, !(splitFrom_at_sep sep Hne).
      assert (Hrlen : (length r <= n)%nat).
      { apply (f_equal length) in Hr. rewrite length_app in Hr.
        simpl in Hr, Hlen. destruct sep; [contradiction |].
        simpl in Hr. lia. }
      rewrite (IH r Hrlen).
      pose proof (splitFrom_nonempty sep r 0) as Hnil.
      destruct (splitFrom sep 0 r); [contradiction | reflexivity].
    + cbn [app]. rewrite !splitFrom_no_start; [| exact Hs |].
      * rewrite (IH p) by (simpl in Hlen; lia).
        symmetry. apply appLast_pushFront, splitFrom_nonempty.
      * destruct (startsWith sep (a :: p ++ [c])) eqn:Hs'; [| reflexivity].
        destruct (startsWith_through c [] sep (a :: p) Hs') as [H | H];
          [congruence | contradiction].
Qed.

Lemma map_trim_appLast (c : N) (pieces : list jsstring) :
  isWhiteSpace c = true ->
  map trim (appLast c pieces) = map trim pieces.
Proof.
  intros Hc. induction pieces as [| p [| q ps] IH]; [reflexivity | |].
  - simpl. rewrite trim_trailing by exact Hc. reflexivity.
  - change (appLast c (p :: q :: ps)) with (p :: appLast c (q :: ps)).
    cbn [map]. rewrite IH. reflexivity.
Qed.

Lemma whiteSpace_not_in_delimiter (c : N) :
  isWhiteSpace c = true -> c ∉ delimiter.
Proof.
  intros Hc Hin. unfold delimiter, lit in Hin. simpl in Hin.
  repeat (apply elem_of_cons in Hin as [-> | Hin]; [discriminate |]).
  apply elem_of_nil in Hin. exact Hin.
Qed.

Lemma delimiterSplit_leading (c : N) (p : jsstring) :
  isWhiteSpace c = true -> delimiterSplit (c :: p) = delimiterSplit p.
Proof.
  intros Hc. unfold delimiterSplit. rewrite !split_delimiter.
  rewrite splitFrom_no_start.
  - pose proof (splitFrom_nonempty delimiter p 0) as Hnil.
    destruct (splitFrom delimiter 0 p) as [| x xs]; [contradiction |].
    cbn [pushFront map]. rewrite trim_leading by exact Hc. reflexivity.
  - destruct (startsWith delimiter (c :: p)) eqn:Hs; [| reflexivity].
    destruct (startsWith_through c p delimiter [] Hs) as [H | H].
    + discriminate.
    + destruct (whiteSpace_not_in_delimiter c Hc H).
Qed.

Lemma delimiterSplit_trailing (c : N) (p : jsstring) :
  isWhiteSpace c = true -> delimiterSplit (p ++ [c]) = delimiterSplit p.
Proof.
  intros Hc. unfold delimiterSplit. rewrite !split_delimiter.
  rewrite (splitFrom_trailing delimiter c delimiter_nonempty
             (whiteSpace_not_in_delimiter c Hc) (length p) p (le_n _)).
  apply map_trim_appLast, Hc.
Qed.

Lemma delimiterSplit_trimStart (p : jsstring) :
  delimiterSplit (trimStart p) = delimiterSplit p.
Proof.
  induction p as [| c p IH]; [reflexivity |]. simpl.
  destruct (isWhiteSpace c) eqn:Hc; [| reflexivity].
  rewrite IH, delimiterSplit_leading by exact Hc. reflexivity.
Qed.

Lemma trimStart_drops (s : jsstring) :
  exists w, s = w ++ trimStart s /\ Forall (fun c => isWhiteSpace c = true) w.
Proof.
  induction s as [| c s (w & Hw & Hall)]; [exists []; split; constructor |].
  simpl. destruct (isWhiteSpace c) eqn:Hc.
  - exists (c :: w). split; [simpl; congruence | constructor; assumption].
  - exists []. split; constructor.
Qed.

Lemma delimiterSplit_trailing_all (w : jsstring) :
  Forall (fun c => isWhiteSpace c = true) w ->
  forall p, delimiterSplit (p ++ w) = delimiterSplit p.
Proof.
  induction 1 as [| c w Hc _ IH]; intros p; [rewrite app_nil_r; reflexivity |].
  change (p ++ c :: w) with (p ++ [c] ++ w).
  rewrite app_assoc, IH. apply delimiterSplit_trailing, Hc.
Qed.

Lemma delimiterSplit_trimEnd (p : jsstring) :
  delimiterSplit (trimEnd p) = delimiterSplit p.
Proof.
  unfold trimEnd.
  destruct (trimStart_drops (rev p)) as (w & Hw & Hall).
  apply (f_equal (@rev N)) in Hw.
  rewrite rev_involutive, rev_app_distr in Hw.
  rewrite Hw at 2. symmetry. apply delimiterSplit_trailing_all.
  apply Forall_rev, Hall.
Qed.

Lemma delimiterSplit_trim (p : jsstring) :
  delimiterSplit (trim p) = delimiterSplit p.
Proof.
  unfold trim. rewrite delimiterSplit_trimEnd. apply delimiterSplit_trimStart.
Qed.

(** C2, as stated, fails twice over: a segment with surrounding white space
    comes back trimmed, and a segment that contains the delimiter token
    derails the split (here the newline split is what is returned). *)
Lemma C2_counterexample :
  (exists S, S <> []
             /\ S = [lit " a"]
             /\ linesOf (decode S (encode S)) = [lit "a"]
             /\ linesOf (decode S (encode S)) <> S)
  /\ (exists S, S <> []
                /\ S = [lit "a---SPLIT---b"; lit ""]
                /\ linesOf (decode S (encode S))
                   = [lit "a---SPLIT---b"; lit "---SPLIT---"]
                /\ linesOf (decode S (encode S)) <> S).
Proof.
  split; eexists; (split; [| split; [reflexivity |]]);
    try discriminate; split; vm_compute; [reflexivity | discriminate
                                          | reflexivity | discriminate].
Qed.

(** C2 (amended): for every non-empty sequence [S] of segments that carry no
    leading or trailing white space and do not contain the delimiter token,
    decoding the encoding of [S] with the expected count [length S] returns
    [S], through the delimiter split; so it does when the payload is
    trimmed first, as the response of the backend is. *)
Theorem C2_round_trip :
  forall (S : list jsstring),
    S <> [] ->
    Forall trimmed S ->
    Forall delimiterFree S ->
    delimiterSplit (encode S) = S
    /\ decode S (encode S) = ByDelimiter S
    /\ linesOf (decode S (encode S)) = S
    /\ linesOf (decode S (trim (encode S))) = S.
Proof.
  intros S Hne Htrim Hfree.
  assert (Hsplit : delimiterSplit (encode S) = S).
  { unfold delimiterSplit. rewrite split_delimiter.
    apply (delimiterSplit_encode S [] Hne Htrim Hfree). left. reflexivity. }
  split; [exact Hsplit |].
  unfold decode. rewrite delimiterSplit_trim, Hsplit, Nat.eqb_refl.
  repeat split; reflexivity.
Qed.

(** A batch of three segments, one of them on two lines. *)
Lemma C2_round_trip_witness :
  let S := [lit "good morning"; lit "first line
second line"; lit ""] in
  encode S = lit "good morning
---SPLIT---
first line
second line
---SPLIT---
"
  /\ delimiterSplit (encode S) = S
  /\ decode S (encode S) = ByDelimiter S
  /\ linesOf (decode S (encode S)) = S
  /\ linesOf (decode S (trim (encode S))) = S.
Proof.
  cbv zeta. split; [reflexivity |].
  apply (C2_round_trip [lit "good morning"; lit "first line
second line"; lit ""]).
  - discriminate.
  - repeat constructor.
  - repeat constructor.
Defined.

(** * Further properties *)

(** ** [translateBatch] as a whole *)

(** X1: whatever the backend does, [translateBatch] returns (it never
    throws) exactly as many lines as it was given, after exactly one POST
    request to [/api/generate] on the normalised host, and it leaves the
    component state alone; when the transport fails, the response is not a
    success, its body is not JSON or has no string [response], the lines
    returned are the texts it was given. *)
Theorem X1_translateBatch_total :
  forall (P : Platform) (h m : jsstring) (texts : list jsstring)
         (w : World),
    let req := generateRequest (cleanHost h) m (buildPrompt texts) in
    let answer := network P (fetched w) req in
    exists (lines : list jsstring) (w' : World),
      translateBatch P h m texts w = (Returned lines, w')
      /\ length lines = length texts
      /\ trace w' = trace w ++ [EvFetch req]
      /\ fetched w' = S (fetched w)
      /\ url req = cleanHost h ++ lit "/api/generate"
      /\ meth req = POST
      /\ (state w', config w', stats w', subtitleBlocks w', logs w')
         = (state w, config w, stats w, subtitleBlocks w, logs w)
      /\ (answer = NetworkFailure -> lines = texts)
      /\ (forall r, answer = HttpResponse r ->
            (responseOk r = false -> lines = texts)
            /\ (payload r = NotJson -> lines = texts)
            /\ (payload r = Json None -> lines = texts)
            /\ (forall s, responseOk r = true -> payload r = Json (Some s) ->
                  lines = linesOf (decode texts (trim s)))).
Proof.
  intros P h m texts w req answer.
  pose proof (translateBatch_run P {| host := h; model := m |} texts w)
    as Hrun.
  unfold requestFor in Hrun. cbn [host model] in Hrun.
  fold req in Hrun. fold answer in Hrun.
  eexists _, _. split; [exact Hrun |].
  split; [apply answerLines_length |].
  do 5 (split; [reflexivity |]).
  split.
  - intros ->. reflexivity.
  - intros r ->. cbn [answerLines]. repeat split.
    + intros ->. reflexivity.
    + intros ->. destruct (responseOk r); reflexivity.
    + intros ->. destruct (responseOk r); reflexivity.
    + intros s -> ->. reflexivity.
Qed.

(** ** What a run does to the document *)

Section RunBlocks.
Variable P : Platform.

Lemma startTranslation_blocks (blocks : list SubtitleBlock) (w : World) :
  exists w' final,
    App.startTranslation P blocks w = (Returned tt, w')
    /\ length final = length blocks
    /\ subtitleBlocks w'
       = match blocks with [] => subtitleBlocks w | _ :: _ => final end
    /\ forall j b,
         blocks !! j = Some b ->
         exists t,
           lineFor P (config w) blocks (fetched w) j = Some t
           /\ final !! j = Some (Block.setTranslatedText t b).
Proof.
  destruct (startTranslation_run P blocks w) as (nb' & w1 & Hloop & Hrun).
  destruct (batchLoop_frame P _ _ _ _ _ _ _ _ _ _ Hloop)
    as (_ & _ & _ & _ & _ & _ & _ & _ & Hlen & Hin & Hout).
  destruct (batchLoop_blocks P _ _ _ _ _ _ _ _ _ _ Hloop) as [_ Hbatch].
  exists (finished P w1), nb'. split; [exact Hrun |].
  split; [exact Hlen |]. split.
  - cbn [finished subtitleBlocks]. destruct blocks as [| b0 blocks].
    + destruct Hout as [-> _]; [simpl; lia | reflexivity].
    + apply Hin. simpl. lia.
  - intros j b Hb. unfold lineFor, App.BATCH_SIZE in *.
    pose proof (Nat.div_mod_eq j 10) as Hdiv.
    pose proof (Nat.mod_upper_bound j 10 ltac:(lia)) as Hmod.
    destruct (Hbatch (j / 10)%nat j) as (t & Ht & Hnb);
      [lia | eapply lookup_lt_Some, Hb |].
    cbn [started fetched config] in Ht.
    replace (j - (0 + 10 * (j / 10)))%nat with (j mod 10)%nat in Ht by lia.
    replace (0 + 10 * (j / 10))%nat with (10 * (j / 10))%nat in Ht by lia.
    exists t. split; [exact Ht |]. rewrite Hnb, Hb. reflexivity.
Qed.

Lemma handleFileChange_blocks (content : jsstring) (w : World) :
  exists parsed w',
    parseSRT content = Returned parsed
    /\ App.handleFileChange P content w = (Returned tt, w')
    /\ length (subtitleBlocks w') = length parsed
    /\ config w' = config w
    /\ forall j b,
         parsed !! j = Some b ->
         exists t,
           lineFor P (config w) parsed (fetched w) j = Some t
           /\ subtitleBlocks w' !! j = Some (Block.setTranslatedText t b).
Proof.
  destruct (parseSRT_total content) as (parsed & Hparse).
  exists parsed.
  unfold App.handleFileChange, tryCatch, lift.
  unfold bind at 1. rewrite Hparse.
  unfold bind at 1. unfold App.setSubtitleBlocks at 1.
  unfold bind at 1. unfold App.setStats at 1.
  unfold bind at 1. unfold App.setState at 1.
  cbn [state config stats subtitleBlocks logs errorMsg fetched clockReads
         trace].
  unfold detach.
  match goal with
  | |- context [App.startTranslation P parsed ?x] =>
      destruct (startTranslation_blocks parsed x)
        as (w' & final & Hrun & Hlen & Hsub & Hat);
      destruct (startTranslation_run P parsed x) as (nb' & w1 & Hloop & Hrun');
      destruct (batchLoop_frame P _ _ _ _ _ _ _ _ _ _ Hloop)
        as (_ & _ & _ & Hcfg & _)
  end.
  rewrite Hrun in Hrun'. injection Hrun' as ->.
  rewrite Hrun.
  cbn [state config stats subtitleBlocks logs errorMsg fetched clockReads
         trace finished started] in *.
  exists (finished P w1). split; [reflexivity |]. split; [reflexivity |].
  cbn [finished subtitleBlocks config] in *.
  split; [| split; [exact Hcfg |]].
  - rewrite Hsub. destruct parsed; [reflexivity | exact Hlen].
  - intros j b Hb. destruct (Hat j b Hb) as (t & Ht & Hfin).
    exists t. split; [exact Ht |]. rewrite Hsub.
    destruct parsed; [discriminate | exact Hfin].
Qed.

End RunBlocks.

(** X2: after a run started from the text of a file, the document has as
    many entries as were parsed, every entry keeps its identifier, its
    timestamps and its original text, the translated text of entry [j] is
    the line at offset [j mod 10] of what [translateBatch] made of the
    answer to call number [j / 10], and the configuration is untouched. *)
Theorem X2_run_writes_only_translations :
  forall (P : Platform) (content : jsstring) (w : World),
    exists parsed w',
      parseSRT content = Returned parsed
      /\ App.handleFileChange P content w = (Returned tt, w')
      /\ length (subtitleBlocks w') = length parsed
      /\ config w' = config w
      /\ forall j b,
           parsed !! j = Some b ->
           exists b',
             subtitleBlocks w' !! j = Some b'
             /\ Block.id b' = Block.id b
             /\ Block.startTime b' = Block.startTime b
             /\ Block.endTime b' = Block.endTime b
             /\ Block.originalText b' = Block.originalText b
             /\ Some (Block.translatedText b')
                = lineFor P (config w) parsed (fetched w) j.
Proof.
  intros P content w.
  destruct (handleFileChange_blocks P content w)
    as (parsed & w' & Hparse & Hrun & Hlen & Hcfg & Hat).
  exists parsed, w'. do 4 (split; [assumption |]).
  intros j b Hb. destruct (Hat j b Hb) as (t & Ht & Hj).
  eexists. split; [exact Hj |]. rewrite Ht. repeat split.
Qed.

(** ** What [parseSRT] returns *)

Lemma trimStart_idempotent (s : jsstring) : trimStart (trimStart s) = trimStart s.
Proof.
  induction s as [| c s IH]; [reflexivity |]. simpl.
  destruct (isWhiteSpace c) eqn:Hc; [exact IH |]. simpl. rewrite Hc.
  reflexivity.
Qed.

Lemma trimStart_snoc (h : N) (u : jsstring) :
  isWhiteSpace h = false -> trimStart (u ++ [h]) = trimStart u ++ [h].
Proof.
  intros Hh. induction u as [| c u IH]; simpl; [rewrite Hh; reflexivity |].
  destruct (isWhiteSpace c); [exact IH | reflexivity].
Qed.

Lemma trimStart_trimEnd (t : jsstring) :
  trimStart t = t -> trimStart (trimEnd t) = trimEnd t.
Proof.
  destruct t as [| h t]; [reflexivity |]. simpl.
  destruct (isWhiteSpace h) eqn:Hh.
  - intros Habs. apply (f_equal length) in Habs. exfalso.
    assert (Hle : forall u, (length (trimStart u) <= length u)%nat).
    { induction u as [| c u IHu]; simpl; [lia |].
      destruct (isWhiteSpace c); simpl; lia. }
    specialize (Hle t). simpl in Habs. lia.
  - intros _. unfold trimEnd. simpl rev. rewrite trimStart_snoc by exact Hh.
    rewrite rev_app_distr. simpl. rewrite Hh. reflexivity.
Qed.

Lemma trim_idempotent (s : jsstring) : trim (trim s) = trim s.
Proof.
  unfold trim.
  rewrite (trimStart_trimEnd (trimStart s) (trimStart_idempotent s)).
  unfold trimEnd. rewrite rev_involutive, trimStart_idempotent. reflexivity.
Qed.

Lemma matchesAt_app_inv (p1 p2 : list atom) :
  forall s,
    matchesAt (p1 ++ p2) s = true ->
    matchesAt p1 (take (length p1) s) = true
    /\ length (take (length p1) s) = length p1
    /\ matchesAt p2 (drop (length p1) s) = true.
Proof.
  induction p1 as [| a p1 IH]; intros s H.
  - simpl. rewrite drop_0. repeat split. exact H.
  - destruct s as [| c s]; [discriminate |]. simpl in *.
    apply andb_prop in H as [Ha Hrest].
    destruct (IH _ Hrest) as (H1 & Hlen & H2).
    rewrite Ha, H1, Hlen. repeat split. exact H2.
Qed.

Lemma search_Some (pat : list atom) :
  forall s m,
    search pat s = Some m ->
    matchesAt pat m = true /\ length m = length pat.
Proof.
  assert (Hhere : forall s, matchesAt pat s = true ->
                   matchesAt pat (take (length pat) s) = true
                   /\ length (take (length pat) s) = length pat).
  { intros s Hm.
    destruct (matchesAt_app_inv pat [] s
                ltac:(rewrite app_nil_r; exact Hm)) as (H1 & H2 & _).
    split; assumption. }
  induction s as [| c s IH]; intros m H; simpl in H.
  - destruct (matchesAt pat []) eqn:Hm; [| discriminate].
    injection H as <-. apply (Hhere [] Hm).
  - destruct (matchesAt pat (c :: s)) eqn:Hm; [| exact (IH _ H)].
    injection H as <-. apply (Hhere (c :: s) Hm).
Qed.

Lemma timePattern_groups (m : jsstring) :
  matchesAt timePattern m = true ->
  length m = length timePattern ->
  timestamp (group1 m) /\ timestamp (group2 m).
Proof.
  intros H Hlen. unfold timePattern in H.
  destruct (matchesAt_app_inv _ _ _ H) as (H1 & Hlen1 & Hrest).
  destruct (matchesAt_app_inv _ _ _ Hrest) as (_ & _ & H2).
  rewrite drop_drop, length_map in H2.
  unfold timestamp, group1, group2. split; [split; assumption |].
  split; [exact H2 |].
  rewrite length_drop, Hlen. reflexivity.
Qed.

Lemma parseBlock_fresh (acc : list SubtitleBlock) (block : jsstring) :
  Forall freshEntry acc ->
  exists out,
    parseBlock acc block = Returned out
    /\ Forall freshEntry out
    /\ (length out <= S (length acc))%nat.
Proof.
  intros Hacc. unfold parseBlock.
  generalize (split [LF] (trim block)). intros lines.
  destruct (Nat.leb_spec 3 (length lines)) as [Hlen | Hlen];
    [| exists acc; repeat split; [assumption | lia]].
  destruct lines as [| line0 [| line1 lines]]; simpl in Hlen; try lia.
  cbn [lookup list_lookup deref obind].
  destruct (search timePattern line1) as [m |] eqn:Hm;
    [| exists acc; repeat split; [assumption | lia]].
  destruct (search_Some _ _ _ Hm) as [Hmatch Hmlen].
  destruct (timePattern_groups m Hmatch Hmlen) as [Hstart Hend].
  eexists. split; [reflexivity |]. split.
  - apply Forall_app. split; [exact Hacc |].
    constructor; [| constructor].
    repeat split; try apply Hstart; try apply Hend. apply trim_idempotent.
  - rewrite length_app. simpl. lia.
Qed.

Lemma forEach_parseBlock_fresh (blocks : list jsstring) :
  forall acc,
    Forall freshEntry acc ->
    exists out,
      forEach parseBlock blocks acc = Returned out
      /\ Forall freshEntry out
      /\ (length out <= length acc + length blocks)%nat.
Proof.
  induction blocks as [| block blocks IH]; intros acc Hacc; cbn [forEach].
  - exists acc. repeat split; [assumption | lia].
  - destruct (parseBlock_fresh acc block Hacc) as (out1 & -> & Hout1 & Hlen1).
    cbn [obind].
    destruct (IH out1 Hout1) as (out & -> & Hout & Hlen).
    exists out. repeat split; [assumption | simpl; lia].
Qed.

(** X4: every entry [parseSRT] returns has an empty translated text, start
    and end times of the shape [\d\d:\d\d:\d\d,\d\d\d] (twelve code
    units), and an identifier without surrounding white space; and there
    are at most as many entries as blocks separated by blank lines. *)
Theorem X4_parseSRT_entries_fresh :
  forall (content : jsstring),
    exists entries,
      parseSRT content = Returned entries
      /\ Forall freshEntry entries
      /\ (length entries
          <= length (split [LF; LF] (normalizeLineEndings content)))%nat.
Proof.
  intros content. unfold parseSRT.
  destruct (forEach_parseBlock_fresh
              (split [LF; LF] (normalizeLineEndings content)) []
              ltac:(constructor)) as (out & Hrun & Hfresh & Hlen).
  exists out. repeat split; assumption.
Qed.

(** ** A backend that is down *)

Lemma parseSRT_fresh (content : jsstring) (parsed : list SubtitleBlock) :
  parseSRT content = Returned parsed -> Forall freshEntry parsed.
Proof.
  intros H. unfold parseSRT in H.
  destruct (forEach_parseBlock_fresh
              (split [LF; LF] (normalizeLineEndings content)) []
              ltac:(constructor)) as (out & Hrun & Hfresh & _).
  congruence.
Qed.

Lemma textOf_fallback (b : SubtitleBlock) :
  Block.translatedText b = [] ->
  textOf (Block.setTranslatedText (Block.originalText b) b) = textOf b.
Proof.
  intros H. unfold textOf. rewrite H. simpl.
  destruct (Block.originalText b); reflexivity.
Qed.

(** X3: when every generate call fails, the run started from the text of a
    file ends with each entry's translated text equal to its original text,
    and the file offered for download is the one [generateSRT] makes of the
    parsed entries themselves. *)
Theorem X3_dead_backend_keeps_document :
  forall (P : Platform) (content : jsstring) (w : World),
    (forall k req, generateFails (network P k req)) ->
    exists parsed w',
      parseSRT content = Returned parsed
      /\ App.handleFileChange P content w = (Returned tt, w')
      /\ subtitleBlocks w'
         = map (fun b => Block.setTranslatedText (Block.originalText b) b)
             parsed
      /\ generateSRT (subtitleBlocks w') = generateSRT parsed.
Proof.
  intros P content w Hdead.
  destruct (handleFileChange_blocks P content w)
    as (parsed & w' & Hparse & Hrun & Hlen & _ & Hat).
  exists parsed, w'. do 2 (split; [assumption |]).
  assert (Hblocks : subtitleBlocks w'
            = map (fun b => Block.setTranslatedText (Block.originalText b) b)
                parsed).
  { apply list_eq. intros j.
    change (map ?f parsed) with (f <$> parsed). rewrite list_lookup_fmap.
    destruct (parsed !! j) as [b |] eqn:Hb; simpl.
    - destruct (Hat j b Hb) as (t & Ht & ->). f_equal. f_equal.
      unfold lineFor in Ht. rewrite answerLines_failure in Ht by apply Hdead.
      pose proof (Nat.div_mod_eq j App.BATCH_SIZE) as Hdiv.
      pose proof (Nat.mod_upper_bound j App.BATCH_SIZE ltac:(discriminate))
        as Hmod.
      replace (j mod App.BATCH_SIZE)%nat
        with (j - App.BATCH_SIZE * (j / App.BATCH_SIZE))%nat in Ht by lia.
      rewrite textsAt_lookup, Hb in Ht by lia.
      injection Ht as <-. reflexivity.
    - apply lookup_ge_None. apply lookup_ge_None in Hb. lia. }
  split; [exact Hblocks |].
  rewrite Hblocks. unfold generateSRT. f_equal. rewrite map_map.
  pose proof (parseSRT_fresh content parsed Hparse) as Hfresh.
  clear -Hfresh. induction Hfresh as [| b bs (Hb & _) _ IH]; [reflexivity |].
  cbn [map]. rewrite IH, (textOf_fallback b Hb). reflexivity.
Qed.

Lemma X3_dead_backend_witness :
  exists w',
    App.handleFileChange deadPlatform sampleSrt App.initialWorld
    = (Returned tt, w')
    /\ generateSRT (subtitleBlocks w') = lit "1
00:00:01,000 --> 00:00:02,500
hello
world

2
00:00:03,000 --> 00:00:04,000
  bye".
Proof.
  destruct (X3_dead_backend_keeps_document deadPlatform sampleSrt
              App.initialWorld)
    as (parsed & w' & Hparse & Hrun & _ & Hout).
  - intros k req. left. reflexivity.
  - exists w'. split; [exact Hrun |]. rewrite Hout.
    vm_compute in Hparse. injection Hparse as <-. reflexivity.
Defined.

(** ** What a run costs *)

Lemma indices_length (n : nat) :
  forall (fuel i : nat),
    (n - i <= fuel)%nat ->
    length (indices fuel i n) = ((n - i + 9) / 10)%nat.
Proof.
  induction fuel as [| fuel IH]; intros i Hfuel; cbn [indices];
    destruct (Nat.ltb_spec i n) as [Hi | Hi];
    try (replace (n - i + 9)%nat with 9%nat by lia; reflexivity).
  cbn [length]. rewrite IH by (unfold App.BATCH_SIZE; lia).
  unfold App.BATCH_SIZE.
  destruct (Nat.le_gt_cases 10 (n - i)) as [Hbig | Hsmall].
  - replace (n - i + 9)%nat with (n - (i + 10) + 9 + 1 * 10)%nat by lia.
    rewrite Nat.div_add by discriminate. lia.
  - replace (n - (i + 10) + 9)%nat with 9%nat by lia.
    replace (n - i + 9)%nat with (n - i - 1 + 1 * 10)%nat by lia.
    rewrite Nat.div_add by discriminate.
    rewrite !Nat.div_small by lia. reflexivity.
Qed.

(** X5: [startTranslation] over a document of [n] entries returns after
    sending exactly [ceil(n / 10)] requests of its own, whatever the answers
    are: a failed or garbled answer is neither retried nor does it end the
    run early. *)
Theorem X5_run_cost :
  forall (P : Platform) (blocks : list SubtitleBlock) (w : World),
    exists w',
      App.startTranslation P blocks w = (Returned tt, w')
      /\ fetched w' = (fetched w + (length blocks + 9) / 10)%nat
      /\ length (requestsOf (trace w'))
         = (length (requestsOf (trace w)) + (length blocks + 9) / 10)%nat.
Proof.
  intros P blocks w.
  destruct (startTranslation_run P blocks w) as (nb' & w1 & Hloop & Hrun).
  destruct (batchLoop_frame P _ _ _ _ _ _ _ _ _ _ Hloop)
    as (_ & _ & _ & _ & _ & _ & _ & Hfet & _).
  destruct (batchLoop_trace P _ _ _ _ _ _ _ _ _ _ Hloop)
    as (delta & Htr & _ & Hreq & _).
  exists (finished P w1). split; [exact Hrun |].
  rewrite indices_length in Hfet by lia.
  replace (length blocks - 0 + 9)%nat with (length blocks + 9)%nat in Hfet
    by lia.
  cbn [finished started fetched clockReads stats trace App.withEnd
         App.withStart Stats.startTime Stats.endTime] in *.
  split; [exact Hfet |].
  rewrite Htr. unfold requestsOf in *. rewrite !omap_app, Hreq.
  simpl. rewrite !length_app, length_map, indices_length by lia.
  simpl. replace (length blocks - 0 + 9)%nat with (length blocks + 9)%nat
    by lia. lia.
Qed.

(** ** The log *)

Lemma take_app_take {A} (n : nat) (a b : list A) :
  take n (a ++ take n b) = take n (a ++ b).
Proof.
  rewrite !take_app, take_take. do 2 f_equal. lia.
Qed.

Lemma batchLoop_logs (P : Platform) (cfg : OllamaConfig)
  (blocks : list SubtitleBlock) :
  forall (fuel i cp : nat) (nb : list SubtitleBlock) (w : World)
         (r : nat) (nb' : list SubtitleBlock) (w' : World),
    App.batchLoop P fuel cfg blocks i cp nb w = (Returned (r, nb'), w') ->
    take 5 (logs w')
    = take 5 (rev (map (fun i => windowMessage (windowAt (length blocks) i))
                     (indices fuel i (length blocks)))
              ++ logs w).
Proof.
  induction fuel as [| fuel IH]; intros i cp nb w r nb' w' Hrun;
    destruct (Nat.lt_ge_cases i (length blocks)) as [Hi | Hi];
    try (rewrite batchLoop_exit in Hrun by lia; injection Hrun as <- <- <-;
         cbn [indices]; apply Nat.ltb_ge in Hi; rewrite Hi; reflexivity).
  - apply Nat.ltb_lt in Hi. cbn [App.batchLoop] in Hrun.
    rewrite Hi in Hrun. discriminate.
  - rewrite batchLoop_step in Hrun by exact Hi.
    apply IH in Hrun. rewrite Hrun.
    cbn [afterBatch logs indices]. apply Nat.ltb_lt in Hi. rewrite Hi.
    cbn [map rev]. rewrite take_app_take, <- app_assoc. reflexivity.
Qed.

(** X6: the log keeps at most five messages, newest first; after a run it
    is the five newest of: the completion message, the announcements of the
    windows from the last to the first, the start message, and what was
    there before. *)
Theorem X6_log_after_run :
  forall (P : Platform) (blocks : list SubtitleBlock) (w : World),
    exists w',
      App.startTranslation P blocks w = (Returned tt, w')
      /\ logs w'
         = take 5 (LogCompleted
                     :: rev (map windowMessage
                               (windowsFrom 0 (batchesOf blocks)))
                     ++ LogStarting :: logs w)
      /\ (length (logs w') <= 5)%nat
      /\ logs w' !! 0%nat = Some LogCompleted.
Proof.
  intros P blocks w.
  destruct (startTranslation_run P blocks w) as (nb' & w1 & Hloop & Hrun).
  pose proof (batchLoop_logs P _ _ _ _ _ _ _ _ _ _ Hloop) as Hlogs.
  exists (finished P w1). split; [exact Hrun |].
  assert (Hfinal : logs (finished P w1)
            = take 5 (LogCompleted
                        :: rev (map windowMessage
                                  (windowsFrom 0 (batchesOf blocks)))
                        ++ LogStarting :: logs w)).
  { cbn [finished logs].
    change (LogCompleted :: logs w1) with ([LogCompleted] ++ logs w1).
    rewrite <- take_app_take, Hlogs, take_app_take.
    cbn [started logs]. rewrite app_assoc, take_app_take, <- app_assoc.
    unfold batchesOf. rewrite <- windows_of_indices, map_map. reflexivity. }
  split; [exact Hfinal |]. rewrite Hfinal. split.
  - rewrite length_take. lia.
  - reflexivity.
Qed.

(** ** Normalising an address, again *)

Lemma replaceAll_absent (pat rep : jsstring) :
  forall s, includes pat s = false -> replaceAll pat rep s = s.
Proof.
  unfold replaceAll.
  induction s as [| c s IH]; intros H; [reflexivity |].
  cbn [includes] in H. apply orb_false_elim in H as [Hc Hs].
  cbn [replaceAllFrom]. rewrite Hc, (IH Hs). reflexivity.
Qed.

(** X7: whatever the address, what [cleanHost] returns starts with
    [http://] or [https://] (in any case of the letters), and white space
    around the address makes no difference; an address that is already
    normal (no white space around it, no occurrence of the pattern of the
    first [replace], no slash at its end, a scheme in front) is returned
    as it is. *)
Theorem X7_cleanHost_scheme_and_fixed_points :
  forall (h : jsstring),
    hasHttpScheme (cleanHost h) = true
    /\ cleanHost (trim h) = cleanHost h
    /\ (hasHttpScheme
          (stripLast 47 (replaceAll colonPattern (lit ":") (trim h))) = true ->
        cleanHost h
        = stripLast 47 (replaceAll colonPattern (lit ":") (trim h)))
    /\ (trim h = h ->
        includes colonPattern h = false ->
        stripLast 47 h = h ->
        hasHttpScheme h = true ->
        cleanHost h = h).
Proof.
  intros h. split; [| split; [| split]].
  - unfold cleanHost.
    destruct (hasHttpScheme
                (stripLast 47 (replaceAll colonPattern (lit ":") (trim h))))
      eqn:Hs; simpl; [exact Hs | reflexivity].
  - unfold cleanHost. rewrite trim_idempotent. reflexivity.
  - intros Hs. unfold cleanHost. rewrite Hs. reflexivity.
  - intros Ht Hc Hl Hs. unfold cleanHost.
    rewrite Ht, (replaceAll_absent _ _ _ Hc), Hl, Hs. reflexivity.
Qed.

Lemma X7_cleanHost_witness :
  cleanHost (lit "HTTPS://models.example:11434/v1")
  = lit "HTTPS://models.example:11434/v1".
Proof.
  apply (X7_cleanHost_scheme_and_fixed_points
           (lit "HTTPS://models.example:11434/v1")); reflexivity.
Defined.

(** ** The shape of what [decode] returns *)

Lemma split_char_pieces (c : N) :
  forall s, Forall (fun p => c ∉ p) (splitFrom [c] 0 s).
Proof.
  induction s as [| a s IH]; [repeat constructor; apply not_elem_of_nil |].
  cbn [splitFrom startsWith length Nat.sub].
  destruct (codeEq c a) eqn:Hca; simpl.
  - constructor; [apply not_elem_of_nil | exact IH].
  - destruct (splitFrom [c] 0 s) as [| p ps]; simpl.
    + repeat constructor. rewrite not_elem_of_cons. split.
      * intros ->. unfold codeEq in Hca. rewrite N.eqb_refl in Hca.
        discriminate.
      * apply not_elem_of_nil.
    + inversion IH; subst. constructor; [| assumption].
      rewrite not_elem_of_cons. split; [| assumption].
      intros ->. unfold codeEq in Hca. rewrite N.eqb_refl in Hca.
      discriminate.
Qed.

(** X8: what [decode] returns has one of three shapes: pieces of the
    delimiter split, each without white space around it; lines of the
    response, each without a line feed and not blank (but with its
    indentation, these are not trimmed); or the texts it was given. *)
Theorem X8_decode_shapes :
  forall (texts : list jsstring) (rawOutput : jsstring),
    match decode texts rawOutput with
    | ByDelimiter l =>
        l = delimiterSplit rawOutput /\ Forall (fun s => trim s = s) l
    | ByNewline l =>
        l = newlineSplit rawOutput
        /\ Forall (fun s => (LF ∉ s) /\ trim s <> []
                             /\ (s ∈ split [LF] rawOutput))
             l
    | Originals l => l = texts
    end.
Proof.
  intros texts rawOutput.
  destruct (decode_cases texts rawOutput)
    as [[_ ->] | [(_ & _ & ->) | (_ & _ & ->)]]; [| | reflexivity].
  - split; [reflexivity |]. unfold delimiterSplit.
    induction (split delimiter rawOutput) as [| p ps IH]; constructor;
      [apply trim_idempotent | exact IH].
  - split; [reflexivity |]. unfold newlineSplit.
    apply list.Forall_forall. intros s Hs.
    apply list_elem_of_filter in Hs as [Hnonblank Hin].
    split; [| split; [| exact Hin]].
    + pose proof (split_char_pieces LF rawOutput) as Hall.
      rewrite list.Forall_forall in Hall. apply Hall, Hin.
    + intros Hnil. rewrite Hnil in Hnonblank. discriminate.
Qed.

(** ** Line endings *)

Lemma replaceAll_CR_free (s : jsstring) :
  CR ∉ replaceAll [CR] [LF] s.
Proof.
  unfold replaceAll. induction s as [| c s IH]; [apply not_elem_of_nil |].
  cbn [replaceAllFrom startsWith length Nat.sub].
  destruct (codeEq CR c) eqn:Hc; simpl.
  - rewrite not_elem_of_cons. split; [discriminate | exact IH].
  - rewrite not_elem_of_cons. split; [| exact IH].
    intros <-. discriminate.
Qed.

Lemma startsWith_head_absent (c : N) (p s : jsstring) :
  c ∉ s -> startsWith (c :: p) s = false.
Proof.
  intros Hc. destruct s as [| a s]; [reflexivity |]. simpl.
  apply not_elem_of_cons in Hc as [Hca _].
  unfold codeEq. destruct (N.eqb_spec c a); [contradiction | reflexivity].
Qed.

Lemma includes_head_absent (c : N) (p : jsstring) :
  forall s, c ∉ s -> includes (c :: p) s = false.
Proof.
  induction s as [| a s IH]; intros Hc; [reflexivity |].
  cbn [includes]. rewrite (startsWith_head_absent c p (a :: s) Hc).
  apply not_elem_of_cons in Hc as [_ Hc]. exact (IH Hc).
Qed.

Lemma normalize_CR_free (s : jsstring) :
  CR ∉ s -> normalizeLineEndings s = s.
Proof.
  intros Hc. unfold normalizeLineEndings.
  rewrite (replaceAll_absent [CR; LF] [LF] s (includes_head_absent _ _ _ Hc)).
  apply replaceAll_absent, includes_head_absent, Hc.
Qed.

Lemma normalize_CRLF (s : jsstring) :
  CR ∉ s -> normalizeLineEndings (withLineEnding [CR; LF] s) = s.
Proof.
  intros Hc. unfold normalizeLineEndings.
  assert (H1 : replaceAll [CR; LF] [LF] (withLineEnding [CR; LF] s) = s).
  { unfold replaceAll, withLineEnding.
    induction s as [| c s IH]; [reflexivity |].
    apply not_elem_of_cons in Hc as [Hne Hc]. specialize (IH Hc).
    cbn [map concat]. destruct (codeEq c LF) eqn:Hlf.
    - apply N.eqb_eq in Hlf as ->. cbn. f_equal. exact IH.
    - cbn [app replaceAllFrom startsWith]. unfold codeEq at 1.
      destruct (N.eqb_spec CR c) as [Heq | _]; [contradiction |].
      cbn [andb]. f_equal. exact IH. }
  rewrite H1. apply replaceAll_absent, includes_head_absent, Hc.
Qed.

Lemma withLineEnding_CR_no_LF (s : jsstring) :
  LF ∉ withLineEnding [CR] s.
Proof.
  unfold withLineEnding. induction s as [| c s IH];
    [apply not_elem_of_nil |].
  cbn [map concat]. destruct (codeEq c LF) eqn:Hlf; cbn [app];
    rewrite not_elem_of_cons; (split; [| exact IH]).
  - discriminate.
  - intros <-. unfold codeEq in Hlf. rewrite N.eqb_refl in Hlf.
    discriminate.
Qed.

Lemma replaceAll_CRLF_no_LF :
  forall t, LF ∉ t -> replaceAll [CR; LF] [LF] t = t.
Proof.
  unfold replaceAll. induction t as [| c t IH]; intros Hlf; [reflexivity |].
  apply not_elem_of_cons in Hlf as [_ Hlf].
  cbn [replaceAllFrom startsWith].
  replace (codeEq CR c
           && match t with
              | [] => false
              | b :: s' => codeEq LF b && true
              end) with false.
  - f_equal. exact (IH Hlf).
  - destruct t as [| b t]; [rewrite andb_false_r; reflexivity |].
    apply not_elem_of_cons in Hlf as [Hb _]. unfold codeEq at 2.
    destruct (N.eqb_spec LF b); [contradiction |].
    rewrite andb_false_r. reflexivity.
Qed.

Lemma normalize_CR (s : jsstring) :
  CR ∉ s -> normalizeLineEndings (withLineEnding [CR] s) = s.
Proof.
  intros Hc. unfold normalizeLineEndings.
  rewrite (replaceAll_CRLF_no_LF _ (withLineEnding_CR_no_LF s)).
  unfold replaceAll, withLineEnding.
  induction s as [| c s IH]; [reflexivity |].
  apply not_elem_of_cons in Hc as [Hne Hc]. specialize (IH Hc).
  cbn [map concat]. destruct (codeEq c LF) eqn:Hlf.
  - apply N.eqb_eq in Hlf as ->. cbn. f_equal. exact IH.
  - cbn [app replaceAllFrom startsWith]. unfold codeEq at 1.
    destruct (N.eqb_spec CR c) as [Heq | _]; [contradiction |].
    cbn [andb]. f_equal. exact IH.
Qed.

(** X9: after [normalizeLineEndings] no carriage return is left; and a text
    written with Windows (CR LF) or old Macintosh (CR) line endings parses
    to the same entries as the text written with line feeds. *)
Theorem X9_line_endings_do_not_matter :
  forall (s : jsstring),
    (CR ∉ normalizeLineEndings s)
    /\ (CR ∉ s ->
        parseSRT (withLineEnding [CR; LF] s) = parseSRT s
        /\ parseSRT (withLineEnding [CR] s) = parseSRT s).
Proof.
  intros s. split.
  - apply replaceAll_CR_free.
  - intros Hc. unfold parseSRT.
    rewrite (normalize_CRLF s Hc), (normalize_CR s Hc),
      (normalize_CR_free s Hc).
    split; reflexivity.
Qed.

Lemma X9_line_endings_witness :
  parseSRT (withLineEnding [CR; LF] sampleSrt) = parseSRT sampleSrt
  /\ parseSRT (withLineEnding [CR] sampleSrt) = parseSRT sampleSrt.
Proof.
  apply (X9_line_endings_do_not_matter sampleSrt).
  vm_compute. intros H.
  repeat (apply elem_of_cons in H as [H | H]; [discriminate |]).
  apply elem_of_nil in H. exact H.
Defined.

(** ** Writing a document and reading it back *)



























(** ** Model discovery *)

Section Discovery.
Variable P : Platform.
Variable modelsField : Response -> option (list Models.OllamaModel).

Lemma fetchModels_run (h : jsstring) (w : World) :
  Models.fetchModels P modelsField h w
  = (Returned (answerModels modelsField
                 (network P (fetched w) (tagsRequest (cleanHost h)))),
     sent (tagsRequest (cleanHost h)) w).
Proof.
  unfold Models.fetchModels, tryCatch, bind, fetch, json, throw, ret,
    answerModels, sent.
  destruct (network P (fetched w) (tagsRequest (cleanHost h))) as [| r];
    [reflexivity |].
  destruct (responseOk r); simpl; [| reflexivity].
  destruct (payload r); reflexivity.
Qed.

Lemma checkConnection_run (h : jsstring) (w : World) :
  exists res w1,
    checkConnection P h w = (Returned res, w1)
    /\ (ok res = true ->
        w1 = sent (tagsRequest (cleanHost h)) w
        /\ exists r, network P (fetched w) (tagsRequest (cleanHost h))
                     = HttpResponse r
                     /\ responseOk r = true)
    /\ (ok res = false ->
        (w1 = w \/ w1 = sent (tagsRequest (cleanHost h)) w)
        /\ errorType res <> None).
Proof.
  unfold checkConnection, tryCatch, bind, newURL, fetch, ret, throw.
  destruct (urlParses P (cleanHost h)); simpl.
  - destruct (network P (fetched w) (tagsRequest (cleanHost h))) as [| r];
      simpl.
    + eexists _, _. split; [reflexivity |]. split; [discriminate |].
      intros _. split; [right; reflexivity | discriminate].
    + destruct (responseOk r) eqn:Hok; [| destruct (status r =? 403)];
        (eexists _, _; split; [reflexivity |]; split;
         [try discriminate | try discriminate]).
      * intros _. split; [reflexivity | exists r; split; reflexivity ||
                                                    exact Hok].
      * intros _. split; [right; reflexivity | discriminate].
      * intros _. split; [right; reflexivity | discriminate].
  - eexists _, _. split; [reflexivity |]. split; [discriminate |].
    intros _. split; [left; destruct w; reflexivity | discriminate].
Qed.

End Discovery.

(** X11: [fetchModels] returns (it never throws) after exactly one request,
    the one the probe makes ([/api/tags] on the normalised host, sent
    without a check of the address); it returns the empty list when the
    transport fails, the response is not a success, its body is not JSON,
    or the body lists no models. *)
Theorem X11_fetchModels_total :
  forall (P : Platform)
         (modelsField : Response -> option (list Models.OllamaModel))
         (h : jsstring) (w : World),
    let req := tagsRequest (cleanHost h) in
    let answer := network P (fetched w) req in
    exists ms w',
      Models.fetchModels P modelsField h w = (Returned ms, w')
      /\ trace w' = trace w ++ [EvFetch req]
      /\ fetched w' = S (fetched w)
      /\ (state w', config w', stats w', subtitleBlocks w')
         = (state w, config w, stats w, subtitleBlocks w)
      /\ (answer = NetworkFailure -> ms = [])
      /\ (forall r, answer = HttpResponse r ->
            (responseOk r = false -> ms = [])
            /\ (payload r = NotJson -> ms = [])
            /\ (modelsField r = None -> ms = [])
            /\ (forall data found,
                  responseOk r = true -> payload r = Json data ->
                  modelsField r = Some found -> ms = found)).
Proof.
  intros P modelsField h w req answer.
  eexists _, _. split; [apply fetchModels_run |].
  do 3 (split; [reflexivity |]). fold req. fold answer. split.
  - intros ->. reflexivity.
  - intros r ->. cbn [answerModels]. repeat split.
    + intros ->. reflexivity.
    + intros ->. destruct (responseOk r); reflexivity.
    + intros ->. destruct (responseOk r), (payload r); reflexivity.
    + intros data found -> -> ->. reflexivity.
Qed.

(** X12: on replies to the model request that fit the declared type (the
    [models] field is missing, or an array of model objects with a string
    [name]: what [modelsField] ranges over), the effect that probes the
    backend finishes with [isChecking] off and the connection status set to
    the result of the probe; it never changes the host.  When the probe
    fails, the list of models is emptied, the configuration is untouched
    and no second request is made.  When it succeeds, a second request
    fetches the models, and for such a reply the first of them becomes the
    selected model exactly when the list is not empty and no model was
    selected in the configuration the effect was created with.  Replies
    with ill-typed entries, such as a [null] in the array, are not
    covered. *)
Theorem X12_load_effect :
  forall (P : Platform)
         (modelsField : Response -> option (list Models.OllamaModel))
         (cfg : OllamaConfig) (s : Mount.Settings) (w : World),
    exists s' w' status w1,
      Mount.load P modelsField cfg s w = (Returned tt, s', w')
      /\ checkConnection P (host cfg) w = (Returned status, w1)
      /\ Mount.isChecking s' = false
      /\ Mount.connectionStatus s' = status
      /\ host (config w') = host (config w)
      /\ (state w', stats w', subtitleBlocks w')
         = (state w, stats w, subtitleBlocks w)
      /\ (ok status = false ->
          Mount.models s' = [] /\ config w' = config w /\ w' = w1
          /\ (fetched w' <= S (fetched w))%nat)
      /\ (ok status = true ->
          fetched w' = (fetched w + 2)%nat
          /\ Mount.models s'
             = answerModels modelsField
                 (network P (S (fetched w))
                    (tagsRequest (cleanHost (host cfg))))
          /\ model (config w')
             = match Mount.models s', model cfg with
               | first :: _, [] => Models.name first
               | _, _ => model (config w)
               end).
Proof.
  intros P modelsField cfg s w.
  destruct (checkConnection_run P (host cfg) w)
    as (status & w1 & Hprobe & Hok & Hfail).
  unfold Mount.load, Mount.bindS, Mount.tryCatchFinally, Mount.liftM,
    Mount.setIsChecking, Mount.setConnectionStatus, Mount.setModels,
    Mount.retS.
  rewrite Hprobe. cbn [Mount.models Mount.connectionStatus Mount.isChecking].
  destruct (ok status) eqn:Hstatus.
  - destruct (Hok eq_refl) as (-> & r & Hr & Hrok). clear Hok Hfail.
    rewrite fetchModels_run. cbn [sent fetched].
    set (found := answerModels modelsField
                    (network P (S (fetched w))
                       (tagsRequest (cleanHost (host cfg))))).
    destruct found as [| first rest] eqn:Hfound; cbn [length Nat.ltb Nat.leb
      andb].
    + eexists _, _, status, _. split; [reflexivity |].
      split; [reflexivity |].
      cbn [Mount.models Mount.connectionStatus Mount.isChecking sent config
             state stats subtitleBlocks fetched host model].
      do 4 (split; [reflexivity |]). split; [congruence |].
      intros _. split; [lia |]. split; reflexivity.
    + change (0 <? S (length rest))%nat with true. cbn [andb].
      destruct (model cfg) as [| c m] eqn:Hmodel; cbn [Mount.isEmpty].
      * unfold lift, Mount.setConfigModel.
        cbn [lookup list_lookup deref].
        eexists _, _, status, _. split; [reflexivity |].
        split; [reflexivity |].
        cbn [Mount.models Mount.connectionStatus Mount.isChecking sent
               config state stats subtitleBlocks fetched host model].
        do 4 (split; [reflexivity |]). split; [congruence |].
        intros _. split; [lia |]. split; reflexivity.
      * eexists _, _, status, _. split; [reflexivity |].
        split; [reflexivity |].
        cbn [Mount.models Mount.connectionStatus Mount.isChecking sent
               config state stats subtitleBlocks fetched host model].
        do 4 (split; [reflexivity |]). split; [congruence |].
        intros _. split; [lia |]. split; reflexivity.
  - destruct (Hfail eq_refl) as [Hw1 _]. clear Hok Hfail.
    eexists _, _, status, _. split; [reflexivity |]. split; [reflexivity |].
    cbn [Mount.models Mount.connectionStatus Mount.isChecking].
    do 2 (split; [reflexivity |]).
    destruct Hw1 as [-> | ->]; cbn [sent config state stats subtitleBlocks
      fetched];
      (split; [reflexivity |]); (split; [reflexivity |]);
      (split; [| congruence]); intros _;
      repeat split; lia.
Qed.

(** A reachable backend that lists two models, and nothing selected yet:
    the first model gets selected. *)
Lemma X12_load_witness :
  exists s' w',
    Mount.load healthyPlatform (fun _ => Some sampleModels)
      (config App.initialWorld) Mount.initialSettings App.initialWorld
    = (Returned tt, s', w')
    /\ Mount.isChecking s' = false
    /\ Mount.models s' = sampleModels
    /\ model (config w') = lit "qwen2.5"
    /\ fetched w' = 2%nat.
Proof.
  destruct (X12_load_effect healthyPlatform (fun _ => Some sampleModels)
              (config App.initialWorld) Mount.initialSettings
              App.initialWorld)
    as (s' & w' & status & w1 & Hrun & Hprobe & Hchk & _ & _ & _ & _ & Hok).
  vm_compute in Hprobe. injection Hprobe as <- <-.
  destruct (Hok eq_refl) as (Hfet & Hmodels & Hmodel).
  exists s', w'. split; [exact Hrun |]. split; [exact Hchk |].
  split; [exact Hmodels |]. split; [| exact Hfet].
  rewrite Hmodel, Hmodels. reflexivity.
Defined.

(** ** The live preview *)

Lemma filter_all {A} (Q : A -> Prop) `{forall x, Decision (Q x)}
  (l : list A) :
  Forall Q l -> filter Q l = l.
Proof.
  induction 1 as [| x l Hx _ IH]; [reflexivity |].
  rewrite filter_cons_True by exact Hx. rewrite IH. reflexivity.
Qed.

(** X13: the live preview renders exactly the first
    [max(5, processedLines + 2)] entries: the test in front of each row
    never hides one of them, translated or not, and an entry beyond them is
    not shown even when it is translated.  Once all but at most two entries
    are processed, every entry is shown. *)
Theorem X13_preview_rows :
  forall (blocks : list SubtitleBlock) (processedLines : nat),
    View.previewRows blocks processedLines
    = imap (fun idx block => (idx, block))
        (take (Nat.max 5 (processedLines + 2)) blocks)
    /\ map snd (View.previewRows blocks processedLines)
       = take (Nat.max 5 (processedLines + 2)) blocks
    /\ ((length blocks <= processedLines + 2)%nat ->
        map snd (View.previewRows blocks processedLines) = blocks).
Proof.
  intros blocks p.
  assert (Hrows : View.previewRows blocks p
            = imap (fun idx block => (idx, block))
                (take (Nat.max 5 (p + 2)) blocks)).
  { unfold View.previewRows, App.slice.
    rewrite Nat.sub_0_r, drop_0. apply filter_all.
    apply list.Forall_forall. intros [idx b] Hin.
    apply elem_of_lookup_imap in Hin as (i & y & [= -> ->] & Hy).
    apply lookup_lt_Some in Hy. rewrite length_take in Hy.
    cbn [fst snd]. apply orb_true_iff. right. apply Nat.ltb_lt. lia. }
  assert (Hsnd : map snd (View.previewRows blocks p)
            = take (Nat.max 5 (p + 2)) blocks).
  { rewrite Hrows. apply list_eq. intros i.
    change (map snd ?l) with (snd <$> l).
    rewrite list_lookup_fmap, list_lookup_imap.
    destruct (take (Nat.max 5 (p + 2)) blocks !! i); reflexivity. }
  split; [exact Hrows |]. split; [exact Hsnd |].
  intros Hlen. rewrite Hsnd. apply take_ge. lia.
Qed.

(** ** Blank answers and empty files *)

Lemma decode_blank (texts : list jsstring) :
  linesOf (decode texts [])
  = if (length texts =? 1)%nat then [[]] else texts.
Proof. destruct texts as [| t [| t2 ts]]; reflexivity. Qed.

(** X14: a successful response whose text is blank (empty once trimmed) is
    taken as the translation of a batch of one segment, which becomes the
    empty string; for a batch of any other size the texts are returned as
    they were given. *)
Theorem X14_blank_response :
  forall (P : Platform) (h m : jsstring) (texts : list jsstring) (w : World)
         (r : Response) (s : jsstring),
    network P (fetched w)
      (generateRequest (cleanHost h) m (buildPrompt texts))
    = HttpResponse r ->
    responseOk r = true ->
    payload r = Json (Some s) ->
    trim s = [] ->
    exists w',
      translateBatch P h m texts w
      = (Returned (if (length texts =? 1)%nat then [[]] else texts), w').
Proof.
  intros P h m texts w r s Hanswer Hok Hbody Hblank.
  pose proof (translateBatch_run P {| host := h; model := m |} texts w)
    as Hrun.
  unfold requestFor in Hrun. cbn [host model] in Hrun.
  rewrite Hanswer in Hrun. cbn [answerLines] in Hrun.
  rewrite Hok, Hbody, Hblank, decode_blank in Hrun.
  eexists. exact Hrun.
Qed.

Lemma X14_blank_response_witness :
  exists w',
    translateBatch blankPlatform App.DEFAULT_HOST (lit "qwen2.5")
      [lit "good morning"] App.initialWorld
    = (Returned [[]], w').
Proof.
  apply (X14_blank_response blankPlatform App.DEFAULT_HOST (lit "qwen2.5")
           [lit "good morning"] App.initialWorld
           {| status := 200; payload := Json (Some (lit "
  ")) |} (lit "
  ")); reflexivity.
Defined.

(** X15: a file in which [parseSRT] finds no entry (an empty file, or one
    with malformed blocks only) is still taken through a whole run: the
    state goes to [PROCESSING] and then [COMPLETED], no request is sent,
    the document and the downloadable text are empty, and both counts of
    the statistics are 0. *)
Theorem X15_file_without_entries :
  forall (P : Platform) (content : jsstring) (w : World),
    parseSRT content = Returned [] ->
    exists w' delta,
      App.handleFileChange P content w = (Returned tt, w')
      /\ trace w' = trace w
           ++ [EvSetSubtitleBlocks [];
               EvSetStats (App.withTotal 0 (stats w));
               EvSetState PROCESSING]
           ++ delta
      /\ stateChanges delta = [COMPLETED]
      /\ requestsOf delta = []
      /\ state w' = COMPLETED
      /\ subtitleBlocks w' = []
      /\ generateSRT (subtitleBlocks w') = []
      /\ Stats.totalLines (stats w') = 0%nat
      /\ Stats.processedLines (stats w') = 0%nat.
Proof.
  intros P content w Hempty.
  destruct (handleFileChange_run P content w)
    as (parsed & w' & delta & Hparse & Hrun & Htr & Hst & _ & Htot & Hproc
        & Hreq & _ & _ & Hstates).
  destruct (handleFileChange_blocks P content w)
    as (parsed' & w'' & Hparse' & Hrun' & Hlen & _).
  rewrite Hrun in Hrun'. injection Hrun' as <-.
  rewrite Hempty in Hparse, Hparse'.
  injection Hparse as <-. injection Hparse' as <-.
  assert (Hsub : subtitleBlocks w' = []).
  { apply length_zero_iff_nil. exact Hlen. }
  exists w', delta. repeat split; try assumption.
  rewrite Hsub. reflexivity.
Qed.

Lemma X15_file_without_entries_witness :
  exists w' delta,
    App.handleFileChange deadPlatform brokenSrt App.initialWorld
    = (Returned tt, w')
    /\ trace w' = trace App.initialWorld
         ++ [EvSetSubtitleBlocks [];
             EvSetStats (App.withTotal 0 (stats App.initialWorld));
             EvSetState PROCESSING]
         ++ delta
    /\ requestsOf delta = []
    /\ state w' = COMPLETED.
Proof.
  destruct (X15_file_without_entries deadPlatform brokenSrt App.initialWorld)
    as (w' & delta & Hrun & Htr & _ & Hreq & Hst & _); [reflexivity |].
  exists w', delta. repeat split; assumption.
Defined.
